(* ===== verification/_CoqProject ===== *)
-Q . S2P
Prelude.v
Types.v
Remote.v
Scenario.v
Async.v
Hooks.v
App.v
Handlers.v
ViewModel.v
Refinement.v
Sessions.v
Errors.v
EventLoop.v
InputCheckbox.v
Gating.v
WellFormed.v
Feed.v
Busy.v
React.v
Stranded.v
SpecView.v
