(* ===== verification/Prelude.v ===== *)
(** * A verification development of the employee-transaction viewer

    ** The program

    [src/src/App.tsx] is one React component.  It reads three data hooks
    ([useEmployees], [usePaginatedTransactions],
    [useTransactionsByEmployee], each a [{ data, loading }] cell with a
    fetch) and keeps three cells of its own ([isLoading], [employeeId],
    [allTransactions]).  Its async handlers orchestrate the fetches:
    - [loadAllTransactions]: the employees, then the first page;
    - [loadTransactionsByEmployee]: one employee's transactions;
    - [loadMoreTransactions]: the next page of the paginated feed.
    An effect runs the initial load after the first render,
    [handleEmployeeChange] serves the select, and the "View More" button
    calls [loadMoreTransactions].  The displayed list is the memo
    [transactions]: the employee's list when filtered, else
    [allTransactions] followed by the latest page.
    [src/src/components/InputCheckbox/index.tsx] is a stateless controlled
    checkbox.  The hooks, the remote source they call, the data types and
    the other widgets are not under [src/].

    ** Files, in dependency order

    - [Prelude] (this file): JavaScript truthiness ([Truthy], [js_not],
      [js_or], [not_null]) in [js_scope], the [js] hint and rewrite
      databases, [destruct_ifs], and list lemmas on pages.
    - [Types]: [Employee], [Transaction], [Page] (a paginated response:
      data and a [nextPage] cursor, a JS number or [null]) and
      [EMPTY_EMPLOYEE], from spec section 3.
    - [Remote]: the remote source (spec section 6).  It is a record of
      three operations returning settled promises ([Resolved] /
      [Rejected]); [respond] dispatches a request.  [serves] is the
      cursor-chain contract of a paginated feed, [cursors_truthy] a law
      about its cursors, and [paged_remote] a concrete source.
    - [Scenario]: the data of the spec's section 8 and remotes that fail.
    - [Async]: an async handler as a [Prog] (updates [Upd], awaits [Await]
      with a resolve continuation and a reject path, [Done], [Throw]).
      Values a handler read from its render are Rocq variables of the
      program, so a continuation sees the render snapshot while the
      updates apply to the live state: this is how the model represents
      React's closures.  [run] settles every await at once; [exec] is the
      event loop, where [Invoke] starts a handler up to its first await and
      [Settle i] resumes the [i]-th pending fetch.
    - [Hooks]: the hooks (modelled from the spec), generic over a [Lens]
      with its laws, the interface through which a hook owns a cell of the
      component's state.  [run_fetchInto] is the hooks' contract.
    - [App]: the component.  [State] holds every cell; the lenses place the
      hooks; every handler is a [Prog State] of its render [snap],
      translated line by line; [transactions], [shouldShowViewMore] and
      every prop of the rendered tree ([App]) are functions of the
      state.
    - [Handlers]: what each handler leaves on every branch (guard false,
      fetches resolving, each fetch rejecting), with the tactics [app_run]
      and [app_solve].
    - [ViewModel]: the spec's abstract view model (section 4.1).  Its
      state is the employees, the pages in fetch order, the filter and the
      scoped list.  [vm_step] gives the actions; [vm_displayed],
      [vm_canLoadMore] and [vm_filterOptions] are the derived views;
      [vm_run] runs a sequence of actions.  Its laws: the pages only grow
      by appending ([vm_step_pages_prefix]) and [vm_wf] is preserved
      ([vm_step_wf]), for any remote whose cursors are truthy.
    - [Refinement]: [refines a s] and the simulation.  Every covered spec
      action, run by the component's handler, preserves the representation
      ([app_refines_spec], C2), and the views agree ([views_refine_spec],
      C15).  Outside the covered actions, "View More" under a filter is a
      no-op of the spec but not of the handler (C23).  The simulation
      lifts to whole runs ([app_run] against [vm_run]): along any sequence
      of covered actions the displayed list is the spec's, and the
      unfiltered list only grows by appending (C27).
    - [Sessions]: the UI wiring ([UiEvent], [handler]: the effect, the
      select's [onChange], the [onClick] of the shown and enabled button)
      and [session], one event after another.  It holds pagination end to
      end (C1), one click (C3), filter changes (C7, C9), the round trip
      select-then-clear (C6), idempotence (C8), the hidden button under a
      filter (C10), the falsy cursor (C16), and the bound on
      the displayed list and the clicks that matter (C19).
    - [Errors]: rejected fetches against spec section 7 ([recovers]): C11,
      C12, C13.  The flag a failed "View More" leaves set is cleared only
      by another handler, a selection whose fetch resolves (C28).
    - [EventLoop]: interleavings.  Two overlapping [loadMoreTransactions]
      duplicate a page (C4), the disabled button prevents it (C5), the
      mount orders its fetches and loading states (C14), and crossed
      employee selections leave the wrong list shown (C17).
    - [InputCheckbox]: the checkbox's props (with the [checked]
      default), its change handler, the class list and the rendered
      tree.  Its behaviour is read directly off the props, so no claim is
      stated about it.
    - [Gating]: every interleaving driven through the UI ([ui_step]: any
      UI event, or any pending fetch settling, in any order).  The
      invariant [gated_inv] (each task continues one of four known
      programs; the hooks' loading flags count the fetches in flight; no
      page fetch before the employees) holds in every reachable
      configuration, by rule induction on the reflexive-transitive
      closure, so at most one page fetch is ever in flight (C18).  A
      session's events embed in it one by one ([session_event_ui]).  The
      tactic [task_cases] unfolds a task's continuation in each of the
      four cases; lemmas on what a continuation does are proved with it.
    - [WellFormed]: [app_wf], the state's shape between events (no hook
      loading, the filter never the empty id, pages accumulated only after
      a page arrived), preserved by every handler on every branch (C20).
      The filter part holds in every UI-driven interleaving as well, with
      fetches in flight, since no continuation of a fetch touches it
      ([ui_reachable_filter_ok], C26).
    - [Feed]: [feed_inv] extends [gated_inv] with the state's position on
      the remote's feed ([feed_ok]) and, for every task in flight, what
      its continuation appends ([feed_task]).  It holds in every
      reachable configuration whatever the remote answers along the feed
      ([feed_consistent]), so the unfiltered list is always the first [k]
      pages, in order, none twice (C21).
    - [Busy]: [isLoading] against the spec's [isBusy] ([spec_busy]: a
      fetch is in flight).  A selection made while a page is being
      fetched clears [isLoading] with the page still in flight (C22).
    - [React]: React's scheduling of the effect (lines 48-52).  After
      each batch of updates the component renders, and the effect runs
      when the dependency list ([effect_deps], line 52) changed since the
      previous render ([rerender]; two rounds always reach a fixed point).
      [react_step] is a user event or a settlement followed by its
      renders; [react_auto] the settlements alone.  Every such run is a
      UI-driven interleaving ([react_reachable_ui]), so C18 and C21 hold
      of it; a
      rejected employee list makes the effect re-run for ever (C24); a
      remote that answers makes the mount load and stop (C25), and a
      rejected first page makes it stop for good with the select loading
      (C29).
    - [Stranded]: what a rejected first page leaves ([stranded]: the
      employees cached, no page, only employee fetches in flight) is an
      invariant of the UI-driven interleavings, so no page is ever
      fetched again, whatever the user does (C30).
    - [SpecView]: the composition of the interleaving invariants
      ([gated_inv], [feed_inv], the filter invariant of [WellFormed],
      and [byemp_ok]: the by-employee hook loads only while its fetch is
      in flight) with [Refinement].  Every configuration the UI reaches
      with nothing in flight represents a well-formed view model on the
      first [k] pages of the feed, and shows its list and "View More"
      condition (C31).

    ** Modelling choices

    [null] is [None].  Strings are [string], and JS numbers (the cursor)
    are [N], with JavaScript truthiness written out: [""] and [0] are
    falsy, arrays are always truthy.  A rejected fetch propagates out of
    the handler ([Throw]) exactly where the source has no [try]: the
    statements after the [await] do not run.  No definition needs fuel.
    [run], [advance] and [seq] recurse structurally on [Prog], through the
    continuation applied to the response; [exec] and [session] recurse on
    the finite list of events.  Every model therefore terminates by
    construction and computes: the witnesses run by [vm_compute].
    [React.rerender] runs
    at most two effect rounds after a commit, and [rerender_stable]
    proves that two are always enough.

    ** Not modelled

    The hooks' internals beyond the spec (caching, the request transport)
    and the widgets App renders (InputSelect, Transactions, Instructions)
    are not modelled: only the props App passes them are.  Sessions
    and the interleavings of [Gating] treat the effect as an event
    ([Rendered]) that may come at any time, with the source's guard;
    [React] schedules it as React does, comparing the dependency values
    (React compares by reference, and the callback identities of the
    hooks' fetchers are not given by [src/]).  [React.memo] and
    [useCallback] do not change behaviour and are not modelled.

    Every statement of [src/src/App.tsx] and of the InputCheckbox
    component that has behaviour is translated; the lines left out of
    the map are imports, the function headers and closing braces.  The
    data hooks and the remote data source stay partly modelled because
    their code (the hooks under [src/src/hooks/], the mock transport) is
    not under [src/].  They are modelled from the spec as a
    [{ data, loading }] cell ([Hooks.fetchInto]) and a record of three
    operations ([Remote.Remote]).  Nothing of their caching can be
    translated faithfully without that code. *)

From stdpp Require Import base list options strings.
From Stdlib Require Import NArith ZArith.

(** ** JavaScript truthiness

    The component tests values the JavaScript way: [if (employeeId)],
    [!employees], [paginatedTransactions?.nextPage].  [Truthy A] gives the
    boolean a value of type [A] coerces to; [option A] stands for
    [A | null]. *)

Declare Scope js_scope.
Delimit Scope js_scope with js.

Class Truthy (A : Type) := truthy : A -> bool.

#[export] Instance truthy_bool : Truthy bool := fun b => b.
(** The empty string is the only falsy string. *)
#[export] Instance truthy_string : Truthy string :=
  fun s => negb (String.eqb s "").
(** The number [0] is the only falsy (non-NaN) number. *)
#[export] Instance truthy_N : Truthy N := fun n => negb (N.eqb n 0).
(** Arrays are objects: always truthy, even when empty. *)
#[export] Instance truthy_list {A} : Truthy (list A) := fun _ => true.
(** [null] is falsy; a present value is as truthy as itself. *)
#[export] Instance truthy_option {A} `{Truthy A} : Truthy (option A) :=
  fun o => match o with None => false | Some a => truthy a end.

(** [!x] *)
Definition js_not {A} `{Truthy A} (x : A) : bool := negb (truthy x).
(** [x || d] where [x : A | null] and [d : A]. *)
Definition js_or {A} `{Truthy A} (x : option A) (d : A) : A :=
  match x with Some a => if truthy a then a else d | None => d end.
(** [x != null] *)
Definition not_null {A} (x : option A) : bool :=
  match x with Some _ => true | None => false end.

Notation "'!' x" := (js_not x) (at level 35, right associativity) : js_scope.

(** ** Automation *)

Create HintDb js.
Create Rewrite HintDb js.

Lemma js_not_none {A} `{Truthy A} : js_not (@None A) = true.
Proof. reflexivity. Qed.
Lemma js_not_some_list {A} (l : list A) : js_not (Some l) = false.
Proof. reflexivity. Qed.
Lemma js_or_list_some {A} (l d : list A) : js_or (Some l) d = l.
Proof. reflexivity. Qed.
Lemma js_or_none {A} `{Truthy A} (d : A) : js_or None d = d.
Proof. reflexivity. Qed.
Lemma truthy_string_empty : truthy ""%string = false.
Proof. reflexivity. Qed.

Lemma truthy_string_iff (s : string) : truthy s = true <-> s <> ""%string.
Proof.
  unfold truthy, truthy_string. rewrite negb_true_iff. split.
  - intros Hf ->. rewrite String.eqb_refl in Hf. discriminate.
  - intros Hne. destruct (String.eqb s "") eqn:E; [|done].
    apply String.eqb_eq in E. contradiction.
Qed.

Lemma truthy_N_iff (n : N) : truthy n = true <-> n <> 0%N.
Proof. unfold truthy, truthy_N. rewrite negb_true_iff, N.eqb_neq. done. Qed.

#[export] Hint Rewrite @js_not_none @js_not_some_list @js_or_list_some
  @js_or_none truthy_string_empty : js.

(** Case on every [if] of the goal, keeping the equation. *)
Ltac destruct_ifs :=
  repeat match goal with
    | |- context [if ?b then _ else _] => destruct b eqn:?
    end.

(** ** Lists: the pages of a paginated feed *)

Lemma concat_map_snoc {A B} (f : A -> list B) (l : list A) (x : A) :
  concat (map f (l ++ [x])) = concat (map f l) ++ f x.
Proof. rewrite map_app, concat_app. simpl. by rewrite app_nil_r. Qed.

(** The pages seen so far split into all but the last (accumulated) and
    the last (the latest response). *)
Lemma concat_map_removelast_last {A B} (f : A -> list B) (l : list A) (x : A) :
  last l = Some x ->
  concat (map f (removelast l)) ++ f x = concat (map f l).
Proof.
  intros Hl. destruct (last_Some l x) as [[l' ->] _]; [done|].
  by rewrite removelast_last, concat_map_snoc.
Qed.

Lemma removelast_snoc {A} (l : list A) (x : A) : removelast (l ++ [x]) = l.
Proof. apply removelast_last. Qed.

(** [List.last] with a default: the head of a list is the default of the
    rest. *)
Lemma last_cons_default {A} (q d : A) (l : list A) : List.last (q :: l) d = List.last l q.
Proof. revert q d. induction l as [|x l IH]; intros q d; [done|]. change (List.last (x :: l) d = List.last (x :: l) q). by rewrite !IH. Qed.

Lemma length_concat_take {A} n (ls : list (list A)) :
  length (concat (take n ls)) <= length (concat ls).
Proof.
  rewrite <- (take_drop n ls) at 2. rewrite concat_app, length_app. lia.
Qed.

Lemma prefix_concat_map {A B} (f : A -> list B) (l1 l2 : list A) :
  l1 `prefix_of` l2 -> concat (map f l1) `prefix_of` concat (map f l2).
Proof. intros [k ->]. rewrite map_app, concat_app. by eexists. Qed.

#[export] Hint Rewrite @removelast_snoc @last_snoc @concat_map_snoc : js.
