(* ===== verification/Types.v ===== *)
(** * Data of the App: employees, transactions, paginated responses

    [src/src/utils/types.ts] and [src/src/utils/constants.ts] are not
    part of [src/]; their shapes are modelled from the spec (section 3):
    [Employee], [Transaction], [PaginatedResponse<Transaction[]>] (a page
    with its cursor) and the sentinel [EMPTY_EMPLOYEE] whose id is [""]. *)

From stdpp Require Import base list options strings.
From Stdlib Require Import NArith ZArith.
From S2P Require Import Prelude.

Module Employee.
(** [type Employee = { id: string; firstName: string; lastName: string }] *)
Record t := mk { id : string; firstName : string; lastName : string }.
End Employee.
Abbreviation Employee := Employee.t.

Module Transaction.
(** A transaction carries an identifier and the fields it is displayed
    with; the Presentation Layer owns its exact shape. *)
Record t := mk {
  id : string;
  amount : Z;
  employee : Employee;
  date : string
}.
End Transaction.
Abbreviation Transaction := Transaction.t.

(** The pagination cursor is a JavaScript number: [nextPage: number | null]. *)
Abbreviation Cursor := N.

Module Page.
(** [PaginatedResponse<Transaction[]> = { data; nextPage: Cursor | null }];
    [nextPage = null] means the feed is exhausted. *)
Record t := mk { data : list Transaction; nextPage : option Cursor }.
End Page.
Abbreviation Page := Page.t.

(** [EMPTY_EMPLOYEE]: the "no filter" entry offered first by the select.
    Only its empty [id] is fixed by the spec. *)
Definition EMPTY_EMPLOYEE : Employee := Employee.mk "" "" "".

#[export] Instance employee_eq_dec : EqDecision Employee.
Proof. solve_decision. Defined.
#[export] Instance transaction_eq_dec : EqDecision Transaction.
Proof. solve_decision. Defined.
#[export] Instance page_eq_dec : EqDecision Page.
Proof. solve_decision. Defined.
