(* ===== verification/Remote.v ===== *)
(** * The Remote Data Source (spec section 6)

    The hooks [useEmployees], [usePaginatedTransactions] and
    [useTransactionsByEmployee] talk to a remote source that is not part of
    [src/].  It answers three requests; each answer is a settled promise:
    resolved with the data, or rejected with a [FetchError].  A [Remote] is
    the record of its three operations; [respond] dispatches a [Request] to
    the operation that serves it.  [serves] is the pagination contract a
    cursor-based feed keeps, and [paged_remote] a concrete source that
    keeps it. *)

From stdpp Require Import base list options strings.
From Stdlib Require Import NArith ZArith.
From S2P Require Import Prelude Types.

Inductive FetchError := FetchError_transport.

(** A settled promise. *)
Inductive Fetched (A : Type) := Resolved (a : A) | Rejected (e : FetchError).
Arguments Resolved {A} a.
Arguments Rejected {A} e.

Inductive Request :=
| ListEmployees
| TransactionsPage (cursor : option Cursor)
| TransactionsByEmployee (employeeId : string).

(** The type of the data a request resolves with. *)
Definition Resp (r : Request) : Type :=
  match r with
  | ListEmployees => list Employee
  | TransactionsPage _ => Page
  | TransactionsByEmployee _ => list Transaction
  end.

Record Remote := mkRemote {
  listEmployees : Fetched (list Employee);
  fetchTransactionsPage : option Cursor -> Fetched Page;
  fetchTransactionsForEmployee : string -> Fetched (list Transaction)
}.

Definition respond (R : Remote) (r : Request) : Fetched (Resp r) :=
  match r with
  | ListEmployees => listEmployees R
  | TransactionsPage c => fetchTransactionsPage R c
  | TransactionsByEmployee i => fetchTransactionsForEmployee R i
  end.

(** Case on the remote's answer to the fetch the goal waits for. *)
Ltac destruct_fetched :=
  match goal with
  |- context [match ?x with Resolved _ => _ | Rejected _ => _ end] => destruct x eqn:?
  end.

(** ** The pagination contract

    [serves R c ps]: asking [R] for cursor [c] and then for each returned
    [nextPage] in turn yields the pages [ps]: every page but the last
    points at the next one with a truthy (non-zero) number, the last one
    at [null]. *)
Inductive serves (R : Remote) : option Cursor -> list Page -> Prop :=
| serves_last c p :
    fetchTransactionsPage R c = Resolved p ->
    Page.nextPage p = None ->
    serves R c [p]
| serves_more c p n ps :
    fetchTransactionsPage R c = Resolved p ->
    Page.nextPage p = Some n -> n <> 0%N ->
    serves R (Some n) ps ->
    serves R c (p :: ps).

(** The remote's pagination cursors are truthy numbers. *)
Definition cursors_truthy (R : Remote) : Prop :=
  forall c p, fetchTransactionsPage R c = Resolved p -> Page.nextPage p <> Some 0%N.

(** ** A concrete paginated source

    Page [i] of [pages] is served for cursor [Some i], and page [0] for
    [null]; each page points at the next one, the last one at [null].  An
    unknown cursor or employee is rejected. *)
Definition page_at (pages : list (list Transaction)) (i : nat) : option Page :=
  (fun d => Page.mk d (if decide (S i < length pages) then Some (N.of_nat (S i)) else None))
    <$> pages !! i.

Definition paged_remote (emps : list Employee) (pages : list (list Transaction))
    (byEmp : list (string * list Transaction)) : Remote :=
  {| listEmployees := Resolved emps;
     fetchTransactionsPage := fun c =>
       match page_at pages (match c with None => 0 | Some n => N.to_nat n end) with
       | Some p => Resolved p
       | None => Rejected FetchError_transport
       end;
     fetchTransactionsForEmployee := fun i =>
       match list_find (fun e => e.1 = i) byEmp with
       | Some (_, (_, l)) => Resolved l
       | None => Rejected FetchError_transport
       end |}.

(** The feed ends on a page with no cursor. *)
Lemma serves_last_page R c ps d : serves R c ps -> Page.nextPage (List.last ps d) = None.
Proof.
  intros Hs. revert d. induction Hs as [c p _ Hl|c p n ps _ _ _ Hs IH]; intros d; [done|].
  rewrite last_cons_default. apply IH.
Qed.

Lemma paged_remote_cursors_truthy emps pages byEmp :
  cursors_truthy (paged_remote emps pages byEmp).
Proof.
  intros c p. simpl. unfold page_at.
  destruct (pages !! _) as [d|]; simpl; [|done].
  intros [= <-]. simpl. case_decide; [|done]. intros [= Hz].
Qed.
