(* ===== verification/Scenario.v ===== *)
(** * The data of the spec's scenarios (section 8)

    One employee, Ann Lee (id ["1"]); a paginated feed of two pages,
    [[t1; t2]] then [[t3]]; Ann's own list [[t4]].  Served by the concrete
    [paged_remote]. *)

From stdpp Require Import base list options strings.
From Stdlib Require Import ZArith.
From S2P Require Import Prelude Types Remote.

Definition ann : Employee := Employee.mk "1" "Ann" "Lee".
Definition tx (i : string) : Transaction := Transaction.mk i 10%Z ann "2024-01-01".
Definition t1 := tx "t1".
Definition t2 := tx "t2".
Definition t3 := tx "t3".
Definition t4 := tx "t4".

Definition remote : Remote := paged_remote [ann] [[t1; t2]; [t3]] [("1", [t4])].
Definition pages : list Page := [Page.mk [t1; t2] (Some 1%N); Page.mk [t3] None].

(** A second employee the remote knows nothing about. *)
Definition bob : Employee := Employee.mk "2" "Bob" "Ray".

(** Serves the first page, then rejects every further page and every
    employee's list. *)
Definition flaky_remote : Remote :=
  {| listEmployees := Resolved [ann];
     fetchTransactionsPage := fun c =>
       match c with None => Resolved (Page.mk [t1; t2] (Some 1%N)) | Some _ => Rejected FetchError_transport end;
     fetchTransactionsForEmployee := fun _ => Rejected FetchError_transport |}.

(** Serves the first page and every employee's list as [remote] does,
    then rejects every further page. *)
Definition pages_down_remote : Remote :=
  {| listEmployees := Resolved [ann];
     fetchTransactionsPage := fetchTransactionsPage flaky_remote;
     fetchTransactionsForEmployee := fetchTransactionsForEmployee remote |}.

(** Serves the employees and their lists, rejects every page. *)
Definition no_pages_remote : Remote :=
  {| listEmployees := Resolved [ann];
     fetchTransactionsPage := fun _ => Rejected FetchError_transport;
     fetchTransactionsForEmployee := fetchTransactionsForEmployee remote |}.

(** Rejects everything. *)
Definition offline_remote : Remote :=
  {| listEmployees := Rejected FetchError_transport;
     fetchTransactionsPage := fun _ => Rejected FetchError_transport;
     fetchTransactionsForEmployee := fun _ => Rejected FetchError_transport |}.
