(* ===== verification/Async.v ===== *)
(** * Async handlers as programs over the React state

    An [async] handler of [App.tsx] is a sequence of state updates
    ([setX(...)], run synchronously) separated by [await]s of a fetch.
    [Prog S] is that sequence: [Upd f k] applies the update [f] to the
    live state, [Await r k h] suspends on request [r] and continues with
    [k v] when it resolves with [v], or with [h] when it rejects; [Done]
    and [Throw] end the handler's promise (fulfilled or rejected).  Values
    the handler read from its render (its closure) are ordinary Rocq
    variables of the program, so a continuation sees the render-time
    snapshot, not the live state.

    Two semantics: [run] settles each await at once (one action at a time,
    as the UI intends), and [exec] interleaves several in-flight handlers
    on the JavaScript event loop: [Invoke] starts a handler on the current
    state and runs it up to its first await, [Settle i] resolves the
    [i]-th pending fetch and runs its handler to the next await.
    [exec_run_alone] shows the two agree on a handler running alone. *)

From stdpp Require Import base list options strings.
From S2P Require Import Prelude Types Remote.

Inductive Outcome := Completed | Unhandled.

Inductive Prog (St : Type) : Type :=
| Done
| Throw
| Upd (f : St -> St) (k : Prog St)
| Await (r : Request) (k : Resp r -> Prog St) (h : Prog St).
Arguments Done {St}.
Arguments Throw {St}.
Arguments Upd {St} f k.
Arguments Await {St} r k h.

Declare Scope prog_scope.
Delimit Scope prog_scope with prog.

Section Programs.
Context {St : Type}.
Implicit Types (p q : Prog St) (s : St).

(** [p; q] inside an async function: [q] runs after [p] completes; a
    rejection of [p] propagates past [q]. *)
Fixpoint seq p q : Prog St :=
  match p with
  | Done => q
  | Throw => Throw
  | Upd f k => Upd f (seq k q)
  | Await r k h => Await r (fun v => seq (k v) q) (seq h q)
  end.

(** Run to completion, each fetch answered by [R] at once. *)
Fixpoint run (R : Remote) p s : St * Outcome :=
  match p with
  | Done => (s, Completed)
  | Throw => (s, Unhandled)
  | Upd f k => run R k (f s)
  | Await r k h =>
      match respond R r with
      | Resolved v => run R (k v) s
      | Rejected _ => run R h s
      end
  end.

(** ** The event loop *)

(** A handler suspended on a fetch. *)
Record Pending := MkPending {
  req : Request;
  on_resolve : Resp req -> Prog St;
  on_reject : Prog St
}.

Inductive Status := Finished (o : Outcome) | Suspended (t : Pending).

(** Run the synchronous part of [p], up to its first await. *)
Fixpoint advance p s : St * Status :=
  match p with
  | Done => (s, Finished Completed)
  | Throw => (s, Finished Unhandled)
  | Upd f k => advance k (f s)
  | Await r k h => (s, Suspended (MkPending r k h))
  end.

(** The fetch a program suspends on first, whatever the state. *)
Fixpoint first_await p : option Pending :=
  match p with
  | Upd _ k => first_await k
  | Await r k h => Some (MkPending r k h)
  | _ => None
  end.

Definition resume (R : Remote) (t : Pending) : Prog St :=
  match respond R (req t) with
  | Resolved v => on_resolve t v
  | Rejected _ => on_reject t
  end.

Record Config := Cfg { cur : St; tasks : list Pending }.

Inductive Event :=
| Invoke (handler : St -> Prog St)
| Settle (i : nat).

Definition spawn p (c : Config) : Config :=
  let '(s', st) := advance p (cur c) in
  Cfg s' (tasks c ++ match st with Suspended t => [t] | Finished _ => [] end).

Definition step_event (R : Remote) (e : Event) (c : Config) : option Config :=
  match e with
  | Invoke h => Some (spawn (h (cur c)) c)
  | Settle i =>
      t ← tasks c !! i;
      Some (spawn (resume R t) (Cfg (cur c) (delete i (tasks c))))
  end.

Fixpoint exec (R : Remote) (es : list Event) (c : Config) : option Config :=
  match es with
  | [] => Some c
  | e :: es' => c' ← step_event R e c; exec R es' c'
  end.

(** The step relation of the event loop, for reasoning by rule
    induction over every interleaving. *)
Inductive step (R : Remote) : Config -> Config -> Prop :=
| step_intro e c c' : step_event R e c = Some c' -> step R c c'.

(** ** Laws of [seq] and [run] *)

Lemma run_seq R p q s :
  run R (seq p q) s =
    let '(s', o) := run R p s in
    match o with Completed => run R q s' | Unhandled => (s', Unhandled) end.
Proof.
  revert s. induction p as [| |f k IH|r k IH h IHh]; intros s; simpl; try done.
  destruct (respond R r); auto.
Qed.

Lemma exec_app R es1 es2 c :
  exec R (es1 ++ es2) c = c' ← exec R es1 c; exec R es2 c'.
Proof.
  revert c. induction es1 as [|e es1 IH]; intros c; simpl; [done|].
  destruct (step_event R e c); simpl; [apply IH|done].
Qed.

Lemma advance_first_await p s :
  match (advance p s).2 with
  | Suspended t => first_await p = Some t
  | Finished _ => first_await p = None
  end.
Proof. revert s. induction p as [| |f k IH|r k h]; intros s; simpl; [done|done|apply IH|done]. Qed.

Lemma spawn_cur p c : cur (spawn p c) = (advance p (cur c)).1.
Proof. unfold spawn. by destruct (advance p (cur c)). Qed.

Lemma spawn_tasks p c :
  tasks (spawn p c) = tasks c ++ match first_await p with Some t => [t] | None => [] end.
Proof.
  unfold spawn. pose proof (advance_first_await p (cur c)) as H.
  destruct (advance p (cur c)) as [s' []]; simpl in *; by rewrite H.
Qed.

(** A handler alone on the event loop, with every fetch settled as soon
    as it is issued, ends where [run] ends. *)
Lemma exec_run_alone R p s :
  exists n, exec R (repeat (Settle 0) n) (spawn p (Cfg s [])) =
            Some (Cfg (run R p s).1 []).
Proof.
  revert s. induction p as [| |f k IH|r k IH h IHh]; intros s.
  - by exists 0.
  - by exists 0.
  - destruct (IH (f s)) as [n Hn]. exists n. exact Hn.
  - destruct (respond R r) as [v|e] eqn:Hr.
    + destruct (IH v s) as [n Hn]. exists (S n).
      simpl. unfold resume. simpl. rewrite Hr. exact Hn.
    + destruct (IHh s) as [n Hn]. exists (S n).
      simpl. unfold resume. simpl. rewrite Hr. exact Hn.
Qed.
End Programs.

Notation "p ;;; q" := (seq p q) (at level 100, right associativity) : prog_scope.
