(* ===== verification/Hooks.v ===== *)
(** * The data hooks: [useEmployees], [usePaginatedTransactions],
      [useTransactionsByEmployee]

    The hooks live in [src/src/hooks/], which is not part of [src/]: they
    are modelled from the spec (sections 2, 4.1 and 6).  Each hook owns a
    cell [{ data, loading }] of the component's state; its fetch sets
    [loading], awaits the remote, then stores the response in [data]
    (replacing it) and clears [loading].  A rejected fetch clears
    [loading], leaves [data] as it was, and rejects the caller's promise.

    A hook reaches its cell in the component state through a [Lens], the
    interface between the hooks and [App]: the hooks' lemmas are proved for
    any lawful lens, and [App] provides one lens per hook. *)

From stdpp Require Import base list options strings.
From S2P Require Import Prelude Types Remote Async.

Module Hook.
Record t (A : Type) := mk { data : option A; loading : bool }.
Arguments mk {A} data loading.
Arguments data {A} _.
Arguments loading {A} _.
End Hook.

(** A field of a record state, with the laws of a well-behaved lens. *)
Record Lens (St A : Type) := MkLens {
  view : St -> A;
  update : A -> St -> St;
  view_update : forall a s, view (update a s) = a;
  update_view : forall s, update (view s) s = s;
  update_update : forall a b s, update a (update b s) = update a s
}.
Arguments view {St A} _ _.
Arguments update {St A} _ _ _.

Section HookOps.
Context {St A : Type} (L : Lens St (Hook.t A)).

Definition setLoading (b : bool) (s : St) : St :=
  update L (Hook.mk (Hook.data (view L s)) b) s.
Definition setData (d : option A) (s : St) : St :=
  update L (Hook.mk d (Hook.loading (view L s))) s.

(** The fetch shared by the three hooks. *)
Definition fetchInto (r : Request) (conv : Resp r -> A) : Prog St :=
  Upd (setLoading true)
    (Await r
       (fun v => Upd (setData (Some (conv v))) (Upd (setLoading false) Done))
       (Upd (setLoading false) Throw)).

End HookOps.

(** [useEmployees().fetchAll]: the employee list. *)
Definition useEmployees_fetchAll {St} (L : Lens St (Hook.t (list Employee))) : Prog St :=
  fetchInto L ListEmployees (fun v => v).

(** The cursor [usePaginatedTransactions] asks for: [null] (the first page)
    while it holds no page, the held page's [nextPage] after. *)
Definition nextCursor (p : option Page) : option Cursor :=
  match p with None => None | Some pg => Page.nextPage pg end.

(** [usePaginatedTransactions().fetchAll] as bound in the render whose
    state is [snap]: the cursor comes from that render's page. *)
Definition usePaginatedTransactions_fetchAll {St} (L : Lens St (Hook.t Page))
    (snap : St) : Prog St :=
  fetchInto L (TransactionsPage (nextCursor (Hook.data (view L snap)))) (fun v => v).

(** [useTransactionsByEmployee().fetchById(employeeId)]. *)
Definition useTransactionsByEmployee_fetchById {St} (L : Lens St (Hook.t (list Transaction)))
    (employeeId : string) : Prog St :=
  fetchInto L (TransactionsByEmployee employeeId) (fun v => v).

Section HookContract.
Context {St A : Type} (L : Lens St (Hook.t A)).

(** The hooks' fetch, through any lawful lens and whatever the remote
    answers: on success the cell holds the response and is no longer
    loading and the call completes; on failure only [loading] is cleared,
    the cell's data is kept, and the caller sees a rejection. *)
Lemma run_fetchInto R r conv s :
  run R (fetchInto L r conv) s =
    match respond R r with
    | Resolved v => (update L (Hook.mk (Some (conv v)) false) s, Completed)
    | Rejected _ => (update L (Hook.mk (Hook.data (view L s)) false) s, Unhandled)
    end.
Proof.
  simpl. unfold setData, setLoading.
  destruct (respond R r); simpl; rewrite !view_update, !update_update; done.
Qed.
End HookContract.
