(* ===== verification/App.v ===== *)
(** * The [App] component ([src/src/App.tsx])

    [State] is every state cell the component's render reads: the three
    hooks' [{ data, loading }] cells (lines 12-14) and the three
    [useState] cells [isLoading], [employeeId], [allTransactions] (lines
    16-18).  Each [async] handler of the component is a [Prog State] built
    from the render snapshot [snap] it closes over: [loadAllTransactions]
    (28-35), [loadTransactionsByEmployee] (38-46), the mount effect
    (48-52), [handleEmployeeChange] (55-63), [loadMoreTransactions]
    (66-80).  The memoised [transactions] (20-25), [shouldShowViewMore]
    (83) and the props passed to [InputSelect] and the "View More" button
    (92-117) are functions of the state. *)

From stdpp Require Import base list options strings.
From S2P Require Import Prelude Types Remote Async Hooks.

Open Scope js_scope.
Open Scope prog_scope.

Record State := MkState {
  employeesHook : Hook.t (list Employee);
  paginatedHook : Hook.t Page;
  byEmployeeHook : Hook.t (list Transaction);
  isLoading : bool;
  employeeId : option string;
  allTransactions : list Transaction
}.

(** ** The hooks' cells (lines 12-14) *)

Definition set_employeesHook (h : Hook.t (list Employee)) (s : State) : State :=
  MkState h (paginatedHook s) (byEmployeeHook s) (isLoading s) (employeeId s) (allTransactions s).
Definition set_paginatedHook (h : Hook.t Page) (s : State) : State :=
  MkState (employeesHook s) h (byEmployeeHook s) (isLoading s) (employeeId s) (allTransactions s).
Definition set_byEmployeeHook (h : Hook.t (list Transaction)) (s : State) : State :=
  MkState (employeesHook s) (paginatedHook s) h (isLoading s) (employeeId s) (allTransactions s).

Definition employees_lens : Lens State (Hook.t (list Employee)) :=
  MkLens _ _ employeesHook set_employeesHook
    (fun _ _ => eq_refl) (fun '(MkState _ _ _ _ _ _) => eq_refl) (fun _ _ _ => eq_refl).
Definition paginated_lens : Lens State (Hook.t Page) :=
  MkLens _ _ paginatedHook set_paginatedHook
    (fun _ _ => eq_refl) (fun '(MkState _ _ _ _ _ _) => eq_refl) (fun _ _ _ => eq_refl).
Definition byEmployee_lens : Lens State (Hook.t (list Transaction)) :=
  MkLens _ _ byEmployeeHook set_byEmployeeHook
    (fun _ _ => eq_refl) (fun '(MkState _ _ _ _ _ _) => eq_refl) (fun _ _ _ => eq_refl).

(** [const { data: employees, loading: employeesLoading, fetchAll:
    fetchEmployees } = useEmployees()] and its two siblings. *)
Definition employees (s : State) := Hook.data (employeesHook s).
Definition employeesLoading (s : State) := Hook.loading (employeesHook s).
Definition paginatedTransactions (s : State) := Hook.data (paginatedHook s).
Definition transactionsLoading (s : State) := Hook.loading (paginatedHook s).
Definition transactionsByEmployee (s : State) := Hook.data (byEmployeeHook s).
Definition transactionsByEmployeeLoading (s : State) := Hook.loading (byEmployeeHook s).

Definition fetchEmployees : Prog State := useEmployees_fetchAll employees_lens.
Definition fetchPaginatedTransactions (snap : State) : Prog State :=
  usePaginatedTransactions_fetchAll paginated_lens snap.
Definition fetchTransactionsByEmployee (id : string) : Prog State :=
  useTransactionsByEmployee_fetchById byEmployee_lens id.

(** ** The component's own cells (lines 16-18) *)

Definition setIsLoading (b : bool) (s : State) : State :=
  MkState (employeesHook s) (paginatedHook s) (byEmployeeHook s) b (employeeId s) (allTransactions s).
Definition setEmployeeId (i : option string) (s : State) : State :=
  MkState (employeesHook s) (paginatedHook s) (byEmployeeHook s) (isLoading s) i (allTransactions s).
Definition setAllTransactions (l : list Transaction) (s : State) : State :=
  MkState (employeesHook s) (paginatedHook s) (byEmployeeHook s) (isLoading s) (employeeId s) l.

(** The first render: no data, nothing loading, no filter. *)
Definition initialState : State :=
  MkState (Hook.mk None false) (Hook.mk None false) (Hook.mk None false) false None [].

(** ** Derived values *)

(** Lines 20-25: the employee's list when a filter is set, otherwise the
    accumulated pages followed by the latest page. *)
Definition transactions (s : State) : option (list Transaction) :=
  if truthy (employeeId s) then transactionsByEmployee s
  else Some (allTransactions s ++ js_or (Page.data <$> paginatedTransactions s) []).

(** [paginatedTransactions?.nextPage] *)
Definition nextPageOf (s : State) : option Cursor :=
  paginatedTransactions s ≫= Page.nextPage.

(** Line 83. *)
Definition shouldShowViewMore (s : State) : bool :=
  (! employeeId s) && not_null (nextPageOf s).

(** ** Handlers *)

(** Lines 28-35. *)
Definition loadAllTransactions (snap : State) : Prog State :=
  if (! employees snap) && (! employeesLoading snap) then
    Upd (setIsLoading true)
      (fetchEmployees ;;;
       fetchPaginatedTransactions snap ;;;
       Upd (setIsLoading false) Done)
  else Done.

(** Lines 38-46. *)
Definition loadTransactionsByEmployee (id : string) : Prog State :=
  Upd (setEmployeeId (Some id))
    (Upd (setIsLoading true)
       (fetchTransactionsByEmployee id ;;;
        Upd (setIsLoading false) Done)).

(** Lines 48-52: the effect run after a render. *)
Definition loadEffect (snap : State) : Prog State :=
  if (! employeesLoading snap) && (! employees snap) && (! transactionsLoading snap)
  then loadAllTransactions snap
  else Done.

(** Lines 55-63; [newValue : Employee | null]. *)
Definition handleEmployeeChange (snap : State) (newValue : option Employee) : Prog State :=
  match newValue with
  | None => Done
  | Some e =>
      if negb (String.eqb (Employee.id e) ""%string) then
        loadTransactionsByEmployee (Employee.id e)
      else
        Upd (setEmployeeId None) (loadAllTransactions snap)
  end.

(** Lines 66-80.  [paginatedTransactions] here is the render's value: after
    the fetch has replaced the hook's page, line 76 still appends the page
    [snap] displayed, not the page just fetched. *)
Definition loadMoreTransactions (snap : State) : Prog State :=
  if truthy (nextPageOf snap) then
    Upd (setIsLoading true)
      (fetchPaginatedTransactions snap ;;;
       Upd (setIsLoading false)
         (match Page.data <$> paginatedTransactions snap with
          | Some d =>
              if truthy d then
                Upd (fun s => setAllTransactions (allTransactions s ++ d) s) Done
              else Done
          | None => Done
          end))
  else Done.

(** ** The rendered props (lines 92-117) *)

Record SelectItem := MkSelectItem { value : string; label : string }.

(** [parseItem] (98-101). *)
Definition parseItem (item : Employee) : SelectItem :=
  MkSelectItem (Employee.id item) (Employee.firstName item +:+ " " +:+ Employee.lastName item).

Definition selectIsLoading (s : State) : bool := isLoading s || transactionsByEmployeeLoading s.

Definition selectItems (s : State) : list Employee :=
  match employees s with None => [] | Some es => EMPTY_EMPLOYEE :: es end.

Definition loadingLabel (s : State) : string :=
  if employeesLoading s && (! employees s) then "Loading employees..."%string else ""%string.

Definition viewMoreDisabled (s : State) : bool :=
  transactionsLoading s || isLoading s || negb (not_null (nextPageOf s)).

Definition viewMoreText (s : State) : string :=
  if transactionsLoading s || isLoading s then "Loading..."%string else "View More"%string.

Record ButtonProps := MkButton { disabled : bool; text : string }.

Record View := MkView {
  select_isLoading : bool;
  select_items : list SelectItem;
  select_loadingLabel : string;
  shown_transactions : option (list Transaction);
  viewMore : option ButtonProps
}.

Definition App (s : State) : View :=
  MkView (selectIsLoading s) (map parseItem (selectItems s)) (loadingLabel s)
    (transactions s)
    (if shouldShowViewMore s then Some (MkButton (viewMoreDisabled s) (viewMoreText s)) else None).
