(* ===== verification/Handlers.v ===== *)
(** * What each handler of [App.tsx] does, on every branch

    One lemma per handler and outcome: the state a handler leaves when
    its guard fails, when every fetch resolves, and when a fetch rejects.
    They are stated with [run] (each await settled at once) and used by
    the refinement ([Refinement.v]) and the session theorems
    ([Sessions.v]). *)

From stdpp Require Import base list options strings.
From S2P Require Import Prelude Types Remote Async Hooks App.

Open Scope js_scope.

Create HintDb app.

(** Unfold a handler down to its [Prog] and run it as far as the remote's
    answers are known. *)
Ltac app_run :=
  unfold loadEffect, loadAllTransactions, loadTransactionsByEmployee,
    handleEmployeeChange, loadMoreTransactions, nextPageOf in *;
  unfold fetchEmployees,
    fetchPaginatedTransactions, fetchTransactionsByEmployee,
    useEmployees_fetchAll, usePaginatedTransactions_fetchAll,
    useTransactionsByEmployee_fetchById, fetchInto, setData, setLoading,
    employees, employeesLoading, paginatedTransactions, transactionsLoading,
    transactionsByEmployee, transactionsByEmployeeLoading in *;
  simpl in *.

(** Then rewrite with the hypotheses that fix the guards and the remote's
    answers until the run is computed. *)
Ltac app_solve :=
  app_run;
  repeat match goal with
    | H : ?l = _ |- context [?l] => rewrite H; simpl
    end;
  try reflexivity.

(** A page with a truthy cursor, as [loadMoreTransactions] tests it. *)
Lemma truthy_nextPage s :
  truthy (nextPageOf s) = true ->
  exists p n, paginatedTransactions s = Some p /\ Page.nextPage p = Some n /\ n <> 0%N.
Proof.
  unfold nextPageOf. destruct (paginatedTransactions s) as [p|]; [|done]. simpl.
  destruct (Page.nextPage p) as [n|] eqn:Hn; [|done]. intros Ht.
  exists p, n. split_and!; [done|done|by apply truthy_N_iff].
Qed.

Section Handlers.
Context (R : Remote).

(** ** [loadAllTransactions] (lines 28-35) *)

Lemma loadAll_skip s :
  employees s <> None \/ employeesLoading s = true ->
  loadAllTransactions s = Done.
Proof.
  unfold loadAllTransactions. intros [H|H].
  - by destruct (employees s).
  - rewrite H. by destruct (employees s).
Qed.

(** The render [snap] decides the guard and the cursor; the updates apply
    to the live state [s]. *)
Lemma loadAll_ok snap s es p :
  employees snap = None -> employeesLoading snap = false ->
  listEmployees R = Resolved es ->
  fetchTransactionsPage R (nextCursor (paginatedTransactions snap)) = Resolved p ->
  run R (loadAllTransactions snap) s =
    (MkState (Hook.mk (Some es) false) (Hook.mk (Some p) false) (byEmployeeHook s)
             false (employeeId s) (allTransactions s), Completed).
Proof. intros He Hl Hes Hp. app_solve. Qed.

(** A rejected employee list leaves [isLoading] set: line 33 is never
    reached. *)
Lemma loadAll_employees_error snap s e :
  employees snap = None -> employeesLoading snap = false ->
  listEmployees R = Rejected e ->
  run R (loadAllTransactions snap) s =
    (MkState (Hook.mk (employees s) false) (paginatedHook s) (byEmployeeHook s)
             true (employeeId s) (allTransactions s), Unhandled).
Proof. intros He Hl Hes. app_solve. Qed.

Lemma loadAll_page_error snap s es e :
  employees snap = None -> employeesLoading snap = false ->
  listEmployees R = Resolved es ->
  fetchTransactionsPage R (nextCursor (paginatedTransactions snap)) = Rejected e ->
  run R (loadAllTransactions snap) s =
    (MkState (Hook.mk (Some es) false) (Hook.mk (paginatedTransactions s) false)
             (byEmployeeHook s) true (employeeId s) (allTransactions s), Unhandled).
Proof. intros He Hl Hes Hp. app_solve. Qed.

(** ** [loadTransactionsByEmployee] (lines 38-46) *)

Lemma loadByEmployee_ok s i l :
  fetchTransactionsForEmployee R i = Resolved l ->
  run R (loadTransactionsByEmployee i) s =
    (MkState (employeesHook s) (paginatedHook s) (Hook.mk (Some l) false)
             false (Some i) (allTransactions s), Completed).
Proof. intros Hl. app_solve. Qed.

Lemma loadByEmployee_error s i e :
  fetchTransactionsForEmployee R i = Rejected e ->
  run R (loadTransactionsByEmployee i) s =
    (MkState (employeesHook s) (paginatedHook s)
             (Hook.mk (transactionsByEmployee s) false)
             true (Some i) (allTransactions s), Unhandled).
Proof. intros Hl. app_solve. Qed.

(** ** [loadMoreTransactions] (lines 66-80) *)

Lemma loadMore_skip s :
  truthy (nextPageOf s) = false -> loadMoreTransactions s = Done.
Proof. unfold loadMoreTransactions. by intros ->. Qed.

(** A click appends the page its render [snap] displayed to
    [allTransactions] and replaces the hook's page by the one fetched
    with that page's cursor. *)
Lemma loadMore_ok snap s p n p' :
  paginatedTransactions snap = Some p -> Page.nextPage p = Some n -> n <> 0%N ->
  fetchTransactionsPage R (Some n) = Resolved p' ->
  run R (loadMoreTransactions snap) s =
    (MkState (employeesHook s) (Hook.mk (Some p') false) (byEmployeeHook s)
             false (employeeId s) (allTransactions s ++ Page.data p), Completed).
Proof.
  intros Hp Hn Hn0 Hp'.
  assert (truthy (Some n) = true) as Ht by (apply truthy_N_iff, Hn0).
  app_solve.
Qed.

Lemma loadMore_error snap s p n e :
  paginatedTransactions snap = Some p -> Page.nextPage p = Some n -> n <> 0%N ->
  fetchTransactionsPage R (Some n) = Rejected e ->
  run R (loadMoreTransactions snap) s =
    (MkState (employeesHook s) (Hook.mk (paginatedTransactions s) false)
             (byEmployeeHook s) true (employeeId s) (allTransactions s), Unhandled).
Proof.
  intros Hp Hn Hn0 Hp'.
  assert (truthy (Some n) = true) as Ht by (apply truthy_N_iff, Hn0).
  app_solve.
Qed.

(** ** [handleEmployeeChange] (lines 55-63) and the effect (48-52) *)

Lemma change_select s e :
  Employee.id e <> ""%string ->
  handleEmployeeChange s (Some e) = loadTransactionsByEmployee (Employee.id e).
Proof.
  intros He. unfold handleEmployeeChange.
  by rewrite (proj2 (String.eqb_neq _ _) He).
Qed.

Lemma change_clear s e :
  Employee.id e = ""%string ->
  handleEmployeeChange s (Some e) = Upd (setEmployeeId None) (loadAllTransactions s).
Proof. intros He. unfold handleEmployeeChange. by rewrite He. Qed.

Lemma effect_idle s :
  employeesLoading s = false -> transactionsLoading s = false ->
  loadEffect s = loadAllTransactions s.
Proof.
  intros Hl Ht. unfold loadEffect, loadAllTransactions. rewrite Hl, Ht.
  by destruct (employees s).
Qed.
End Handlers.
