(* ===== verification/ViewModel.v ===== *)
(** * The view model the spec promises (spec sections 3 and 4.1)

    The abstract contract of the orchestrator, independent of React: the
    cached employees, the pages of the unfiltered feed in fetch order, the
    employee filter and the employee-scoped list.  [vm_step] is the
    spec's [initialLoad], [selectEmployee] and [loadMoreTransactions], a
    rejected fetch leaving the view model as it was (section 7); the
    derived views are [displayedTransactions], [canLoadMore] and
    [filterOptions].  [vm_run] runs a sequence of actions; the laws at
    the end are the spec's section 3 invariants (the pages only grow by
    appending, well-formedness is preserved).  [Refinement.v] proves
    that the component implements this contract. *)

From stdpp Require Import base list options strings.
From S2P Require Import Prelude Types Remote.

Record VM := MkVM {
  vm_employees : option (list Employee);
  vm_pages : list Page;
  vm_filter : option string;
  vm_scoped : option (list Transaction)
}.

Definition vm_displayed (a : VM) : option (list Transaction) :=
  match vm_filter a with
  | Some _ => vm_scoped a
  | None => Some (concat (map Page.data (vm_pages a)))
  end.

(** The cursor of the latest page. *)
Definition vm_cursor (a : VM) : option Cursor := last (vm_pages a) ≫= Page.nextPage.

Definition vm_canLoadMore (a : VM) : bool :=
  match vm_filter a with Some _ => false | None => not_null (vm_cursor a) end.

Definition vm_filterOptions (a : VM) : list Employee :=
  match vm_employees a with None => [] | Some es => EMPTY_EMPLOYEE :: es end.

(** The selection an entry of the filter control stands for: the sentinel
    means "no filter". *)
Definition selection_of (e : Employee) : option string :=
  if String.eqb (Employee.id e) "" then None else Some (Employee.id e).

Section Operations.
Context (R : Remote).

Definition vm_initialLoad (a : VM) : VM :=
  match vm_employees a with
  | Some _ => a
  | None =>
      match listEmployees R with
      | Rejected _ => a
      | Resolved es =>
          match fetchTransactionsPage R None with
          | Resolved p => MkVM (Some es) [p] (vm_filter a) (vm_scoped a)
          | Rejected _ => MkVM (Some es) (vm_pages a) (vm_filter a) (vm_scoped a)
          end
      end
  end.

Definition vm_selectEmployee (sel : option string) (a : VM) : VM :=
  match sel with
  | None => vm_initialLoad (MkVM (vm_employees a) (vm_pages a) None (vm_scoped a))
  | Some i =>
      match fetchTransactionsForEmployee R i with
      | Resolved l => MkVM (vm_employees a) (vm_pages a) (Some i) (Some l)
      | Rejected _ => a
      end
  end.

Definition vm_loadMore (a : VM) : VM :=
  match vm_filter a, vm_cursor a with
  | None, Some c =>
      match fetchTransactionsPage R (Some c) with
      | Resolved p => MkVM (vm_employees a) (vm_pages a ++ [p]) (vm_filter a) (vm_scoped a)
      | Rejected _ => a
      end
  | _, _ => a
  end.
End Operations.

Inductive Action :=
| InitialLoad
| SelectEmployee (e : Employee)
| LoadMore.

Definition vm_step (R : Remote) (act : Action) (a : VM) : VM :=
  match act with
  | InitialLoad => vm_initialLoad R a
  | SelectEmployee e => vm_selectEmployee R (selection_of e) a
  | LoadMore => vm_loadMore R a
  end.

(** The spec's actions one after the other. *)
Fixpoint vm_run (R : Remote) (acts : list Action) (a : VM) : VM :=
  match acts with
  | [] => a
  | act :: acts => vm_run R acts (vm_step R act a)
  end.

Definition vm_init : VM := MkVM None [] None None.

(** Well-formed view models: no page before the employees (the initial
    load fetches them first), filters name real employees, and the latest
    cursor is a truthy number. *)
Definition vm_wf (a : VM) : Prop :=
  (vm_employees a = None -> vm_pages a = []) /\
  (forall i, vm_filter a = Some i -> i <> ""%string) /\
  vm_cursor a <> Some 0%N.

(** ** Laws of the view model (spec section 3) *)

(** The pages only grow, by appending: no action drops or reorders a
    page, and changing the filter leaves them alone. *)
Lemma vm_step_pages_prefix R act a :
  vm_wf a -> vm_pages a `prefix_of` vm_pages (vm_step R act a).
Proof.
  intros (Hp & _ & _). destruct act as [|e|]; simpl;
    unfold vm_selectEmployee, vm_initialLoad, vm_loadMore; repeat case_match; simpl;
    first [done|by eexists|by rewrite Hp; [apply prefix_nil|]].
Qed.

Lemma vm_step_wf R act a : cursors_truthy R -> vm_wf a -> vm_wf (vm_step R act a).
Proof.
  intros Hcur (Hp & Hf & Hc). unfold vm_wf, vm_cursor in *.
  destruct act as [|e|]; simpl; unfold vm_selectEmployee, vm_initialLoad, vm_loadMore, selection_of;
    repeat case_match; simplify_eq/=; split_and!; try done;
    rewrite ?last_snoc; simpl; try (by eapply Hcur);
    try (intros; congruence); try (intros i Hi; apply Hf; congruence); try (intros; by apply Hp).
  - intros i [= <-]. by apply String.eqb_neq.
  - intros He. unfold vm_cursor in *. rewrite (Hp He) in *. by simplify_eq/=.
Qed.

Lemma vm_run_pages_prefix R acts a :
  cursors_truthy R -> vm_wf a -> vm_pages a `prefix_of` vm_pages (vm_run R acts a) /\ vm_wf (vm_run R acts a).
Proof.
  intros Hcur. revert a. induction acts as [|act acts IH]; intros a Hwf; simpl; [done|].
  destruct (IH _ (vm_step_wf R act a Hcur Hwf)) as [Hp Hw]. split; [|done].
  etrans; [by apply vm_step_pages_prefix|exact Hp].
Qed.
