(* ===== verification/Refinement.v ===== *)
(** * The component implements the view model (refinement)

    [refines a s]: the React state [s] represents the view model [a].  The
    hooks hold [a]'s employees, scoped list and latest page; the
    component's [allTransactions] holds every earlier page in fetch order;
    no hook is loading between two actions.  [isLoading] is not part of the
    view model: the spec makes it a UI flag.

    Each action of the spec, run by the component's handler
    ([app_action]), takes a representation of [a] to a representation of
    [vm_step R act a], for every remote whose cursors are truthy numbers.
    The actions are the mount effect, a change of the select, and a
    "View More" click while no filter is set (the only state in which the
    UI shows the button).  The one exception is a rejected
    [fetchTransactionsForEmployee]: the component has already set the
    filter (line 40), where the spec leaves the view model unchanged.
    [Errors.v] shows that case.  [app_run] and [vm_run] lift the
    simulation to sequences of actions. *)

From stdpp Require Import base list options strings.
From S2P Require Import Prelude Types Remote Scenario Async Hooks App Handlers ViewModel.

Open Scope js_scope.

Record refines (a : VM) (s : State) : Prop := {
  ref_employees : employees s = vm_employees a;
  ref_filter : employeeId s = vm_filter a;
  ref_scoped : transactionsByEmployee s = vm_scoped a;
  ref_latest : paginatedTransactions s = last (vm_pages a);
  ref_accumulated : allTransactions s = concat (map Page.data (removelast (vm_pages a)));
  ref_employeesLoading : employeesLoading s = false;
  ref_transactionsLoading : transactionsLoading s = false;
  ref_byEmployeeLoading : transactionsByEmployeeLoading s = false
}.

(** The component's handler for each action of the spec. *)
Definition app_action (act : Action) (snap : State) : Prog State :=
  match act with
  | InitialLoad => loadEffect snap
  | SelectEmployee e => handleEmployeeChange snap (Some e)
  | LoadMore => loadMoreTransactions snap
  end.

(** The actions the refinement covers (see the file header). *)
Definition covered (R : Remote) (a : VM) (act : Action) : Prop :=
  match act with
  | InitialLoad => True
  | SelectEmployee e =>
      Employee.id e <> ""%string ->
      exists l, fetchTransactionsForEmployee R (Employee.id e) = Resolved l
  | LoadMore => vm_filter a = None
  end.

(** The component's state after a sequence of the spec's actions, each
    handler run to completion on the render of the state before it. *)
Fixpoint app_run (R : Remote) (acts : list Action) (s : State) : State :=
  match acts with
  | [] => s
  | act :: acts => app_run R acts (run R (app_action act s) s).1
  end.

(** Every action of a sequence is covered where the spec reaches it. *)
Fixpoint all_covered (R : Remote) (acts : list Action) (a : VM) : Prop :=
  match acts with
  | [] => True
  | act :: acts => covered R a act /\ all_covered R acts (vm_step R act a)
  end.

(** The list [transactions] shows with no filter set (line 24). *)
Definition unfiltered (s : State) : list Transaction :=
  allTransactions s ++ js_or (Page.data <$> paginatedTransactions s) [].

(** Close a [refines] goal field by field from a [refines] hypothesis. *)
Ltac refines_fields H :=
  destruct H; constructor; unfold employees, employeesLoading, paginatedTransactions,
    transactionsLoading, transactionsByEmployee, transactionsByEmployeeLoading in *;
  cbn in *; try congruence.

Lemma refines_init : refines vm_init initialState.
Proof. by constructor. Qed.

(** ** The derived views agree *)

Lemma refines_unfiltered a s :
  refines a s -> unfiltered s = concat (map Page.data (vm_pages a)).
Proof.
  intros H. unfold unfiltered. rewrite (ref_accumulated _ _ H), (ref_latest _ _ H).
  destruct (last (vm_pages a)) as [p|] eqn:Hl; simpl.
  - by apply concat_map_removelast_last.
  - apply last_None in Hl. by rewrite Hl.
Qed.

Lemma refines_displayed a s :
  vm_wf a -> refines a s -> transactions s = vm_displayed a.
Proof.
  intros (_ & Hf & _) H. unfold transactions, vm_displayed.
  rewrite (ref_filter _ _ H). destruct (vm_filter a) as [i|] eqn:E.
  - assert (truthy (Some i) = true) as -> by (apply truthy_string_iff; by eapply Hf).
    apply (ref_scoped _ _ H).
  - simpl. f_equal. apply (refines_unfiltered _ _ H).
Qed.

Lemma refines_canLoadMore a s :
  vm_wf a -> refines a s -> shouldShowViewMore s = vm_canLoadMore a.
Proof.
  intros (_ & Hf & _) H. unfold shouldShowViewMore, vm_canLoadMore, nextPageOf, vm_cursor.
  rewrite (ref_filter _ _ H), (ref_latest _ _ H).
  destruct (vm_filter a) as [i|] eqn:E; [|done].
  assert (truthy (Some i) = true) as Ht by (apply truthy_string_iff; by eapply Hf).
  unfold js_not. by rewrite Ht.
Qed.

Lemma refines_filterOptions a s : refines a s -> selectItems s = vm_filterOptions a.
Proof. intros H. unfold selectItems, vm_filterOptions. by rewrite (ref_employees _ _ H). Qed.

(** ** Each action preserves the representation *)

Section Simulation.
Context (R : Remote) (Hcur : cursors_truthy R).

Lemma wf_pages_empty a : vm_wf a -> vm_employees a = None -> vm_pages a = [].
Proof. intros (Hp & _) He. by apply Hp. Qed.

(** [loadAllTransactions] closed over a render [snap] whose hooks are
    those of the live state [s] (the effect, and the "no filter"
    branch of [handleEmployeeChange]). *)
Lemma refine_loadAll a snap s :
  vm_wf a -> refines a s ->
  employeesHook snap = employeesHook s -> paginatedHook snap = paginatedHook s ->
  refines (vm_initialLoad R a) (run R (loadAllTransactions snap) s).1 /\
  vm_wf (vm_initialLoad R a).
Proof using Hcur.
  intros Hwf H He Hp.
  assert (employees snap = vm_employees a) as Es
    by (unfold employees; rewrite He; apply H).
  assert (employeesLoading snap = false) as Ls
    by (unfold employeesLoading; rewrite He; apply H).
  unfold vm_initialLoad. destruct (vm_employees a) as [es|] eqn:Ea.
  { rewrite loadAll_skip; [done|]. left. by rewrite Es. }
  pose proof (wf_pages_empty a Hwf Ea) as Hnil.
  assert (nextCursor (paginatedTransactions snap) = None) as Hc
    by (unfold paginatedTransactions; rewrite Hp; fold (paginatedTransactions s);
        by rewrite (ref_latest _ _ H), Hnil).
  destruct (listEmployees R) as [es|e] eqn:Hes.
  - destruct (fetchTransactionsPage R None) as [p|e] eqn:Hpg.
    + rewrite (loadAll_ok R snap s es p); [|done..|by rewrite Hc].
      destruct Hwf as (_ & Hf & _). split.
      * refines_fields H. by rewrite ref_accumulated0, Hnil.
      * split_and!; [done|done|]. unfold vm_cursor. simpl. by eapply Hcur.
    + rewrite (loadAll_page_error R snap s es e); [|done..|by rewrite Hc].
      split; [refines_fields H|]. destruct Hwf as (_ & Hf & Hc0).
      split_and!; [|done|]; simpl; by rewrite ?Hnil.
  - rewrite (loadAll_employees_error R snap s e); [|done..].
    split; [refines_fields H|done].
Qed.

Lemma refine_select a s e :
  vm_wf a -> refines a s -> covered R a (SelectEmployee e) ->
  refines (vm_selectEmployee R (selection_of e) a)
          (run R (handleEmployeeChange s (Some e)) s).1 /\
  vm_wf (vm_selectEmployee R (selection_of e) a).
Proof using Hcur.
  intros Hwf H Hcov. unfold selection_of.
  destruct (String.eqb (Employee.id e) "") eqn:Ee.
  - apply String.eqb_eq in Ee. rewrite change_clear by done. simpl.
    apply refine_loadAll; [|refines_fields H|done|done].
    destruct Hwf as (Hp & _ & Hc). split_and!; simpl; done.
  - apply String.eqb_neq in Ee. destruct (Hcov Ee) as [l Hl].
    rewrite change_select, (loadByEmployee_ok R s _ l) by done. simpl. rewrite Hl.
    split; [refines_fields H|]. destruct Hwf as (Hp & _ & Hc).
    split_and!; simpl; [done| |done]. by intros i [= <-].
Qed.

Lemma refine_loadMore a s :
  vm_wf a -> refines a s -> vm_filter a = None ->
  refines (vm_loadMore R a) (run R (loadMoreTransactions s) s).1 /\
  vm_wf (vm_loadMore R a).
Proof using Hcur.
  intros Hwf H Hf. unfold vm_loadMore. rewrite Hf.
  pose proof (ref_latest _ _ H) as Hlat.
  assert (nextPageOf s = vm_cursor a) as Hcs
    by (unfold nextPageOf, vm_cursor; by rewrite Hlat).
  destruct (vm_cursor a) as [n|] eqn:Hn.
  2:{ rewrite loadMore_skip by (by rewrite Hcs). by split. }
  unfold vm_cursor in Hn. destruct (last (vm_pages a)) as [p|] eqn:Hl; [|done].
  simpl in Hn. destruct Hwf as (Hemp & Hfil & Hc).
  assert (n <> 0%N) as Hn0
    by (intros ->; apply Hc; unfold vm_cursor; by rewrite Hl).
  destruct (fetchTransactionsPage R (Some n)) as [p'|e] eqn:Hp'.
  - rewrite (loadMore_ok R s s p n p') by done. simpl. split.
    + refines_fields H.
      * by rewrite last_snoc.
      * by rewrite removelast_snoc, ref_accumulated0, concat_map_removelast_last.
    + split_and!; simpl.
      * intros He. apply Hemp in He. by rewrite He in Hl.
      * done.
      * unfold vm_cursor. simpl. rewrite last_snoc. simpl. by eapply Hcur.
  - rewrite (loadMore_error R s s p n e) by done. simpl.
    split; [refines_fields H|by split_and!].
Qed.

(** C2. Refinement: for a remote whose cursors are truthy numbers, every
    covered action of the spec (the mount effect, a change of the select
    whose fetch resolves, a "View More" click with no filter set), run by
    the component's handler on a state that represents a well-formed
    view model, leaves a state that represents the view model the spec's
    action produces, on every branch of the handler, rejected fetches
    included. *)
Theorem app_refines_spec act a s :
  vm_wf a -> refines a s -> covered R a act ->
  refines (vm_step R act a) (run R (app_action act s) s).1 /\
  vm_wf (vm_step R act a).
Proof using Hcur.
  intros Hwf H Hcov. destruct act as [|e|]; simpl.
  - rewrite effect_idle by apply H. by apply refine_loadAll.
  - by apply refine_select.
  - by apply refine_loadMore.
Qed.
(** C27. Refinement of whole runs: along any sequence of the spec's
    actions, each covered where it is taken, the component's handlers run
    one after the other keep a representation of the spec's view model;
    the list shown is the spec's [displayedTransactions] after the same
    actions, and the unfiltered list only grows by appending (spec
    section 3: the accumulation never shrinks, switching filters never
    mutates it). *)
Theorem app_runs_refine_spec acts a s :
  vm_wf a -> refines a s -> all_covered R acts a ->
  refines (vm_run R acts a) (app_run R acts s) /\
  transactions (app_run R acts s) = vm_displayed (vm_run R acts a) /\
  unfiltered s `prefix_of` unfiltered (app_run R acts s).
Proof using Hcur.
  revert a s. induction acts as [|act acts IH]; intros a s Hwf H Hcov; simpl.
  - split_and!; [done|by apply refines_displayed|done].
  - destruct Hcov as [Hc Hcov].
    assert (refines (vm_step R act a) (run R (app_action act s) s).1 /\ vm_wf (vm_step R act a))
      as [H1 Hwf1].
    { destruct act as [|e|]; simpl;
        [rewrite effect_idle by apply H; by apply refine_loadAll|by apply refine_select
        |by apply refine_loadMore]. }
    destruct (IH _ _ Hwf1 H1 Hcov) as (Hr & Ht & Hp). split_and!; [done|done|].
    etrans; [|exact Hp]. rewrite (refines_unfiltered _ _ H), (refines_unfiltered _ _ H1).
    by apply prefix_concat_map, vm_step_pages_prefix.
Qed.
End Simulation.

(** C15. Views: on a state that represents a well-formed view model, the
    memoised list, the "View More" condition and the select's entries are
    the spec's [displayedTransactions], [canLoadMore] and
    [filterOptions]. *)
Theorem views_refine_spec a s :
  vm_wf a -> refines a s ->
  transactions s = vm_displayed a /\ shouldShowViewMore s = vm_canLoadMore a /\
  selectItems s = vm_filterOptions a.
Proof.
  intros Hwf H. split_and!;
    [by apply refines_displayed|by apply refines_canLoadMore|by apply refines_filterOptions].
Qed.

(** C23. [loadMoreTransactions] does not check the filter: on a state
    that represents a filtered view model, the spec's [loadMore] is a
    no-op, but the handler, if invoked, still fetches the next page of
    the unfiltered feed, replaces the hook's page and appends the
    previous one to [allTransactions].  Only the hidden button keeps it
    from being invoked ([shouldShowViewMore] is false). *)
Theorem loadMore_ignores_filter R a s i p n p' :
  refines a s -> vm_filter a = Some i -> i <> ""%string ->
  last (vm_pages a) = Some p -> Page.nextPage p = Some n -> n <> 0%N ->
  fetchTransactionsPage R (Some n) = Resolved p' ->
  let s' := (run R (loadMoreTransactions s) s).1 in
  vm_loadMore R a = a /\ shouldShowViewMore s = false /\
  paginatedTransactions s' = Some p' /\ allTransactions s' = allTransactions s ++ Page.data p.
Proof.
  intros H Hf Hi Hl Hn Hn0 Hp'. cbv zeta.
  assert (paginatedTransactions s = Some p) as Hp by (rewrite (ref_latest _ _ H); done).
  rewrite (loadMore_ok R s s p n p') by done. split_and!; [|..|done|done].
  - unfold vm_loadMore. by rewrite Hf.
  - unfold shouldShowViewMore, js_not. rewrite (ref_filter _ _ H), Hf. simpl.
    change (negb (truthy i) && not_null (nextPageOf s) = false). by rewrite (proj2 (truthy_string_iff i) Hi).
Qed.

Lemma loadMore_ignores_filter_witness :
  let s := MkState (Hook.mk (Some [ann]) false) (Hook.mk (Some (Page.mk [t1; t2] (Some 1%N))) false)
             (Hook.mk (Some [t4]) false) false (Some "1"%string) [] in
  let a := MkVM (Some [ann]) [Page.mk [t1; t2] (Some 1%N)] (Some "1"%string) (Some [t4]) in
  let s' := (run remote (loadMoreTransactions s) s).1 in
  vm_loadMore remote a = a /\ shouldShowViewMore s = false /\
  paginatedTransactions s' = Some (Page.mk [t3] None) /\
  allTransactions s' = allTransactions s ++ Page.data (Page.mk [t1; t2] (Some 1%N)).
Proof.
  apply (loadMore_ignores_filter remote _ _ "1"%string (Page.mk [t1; t2] (Some 1%N)) 1%N).
  - by constructor.
  - reflexivity.
  - vm_compute. discriminate.
  - reflexivity.
  - reflexivity.
  - lia.
  - reflexivity.
Defined.

Lemma views_refine_spec_witness :
  transactions initialState = vm_displayed vm_init /\
  shouldShowViewMore initialState = vm_canLoadMore vm_init /\
  selectItems initialState = vm_filterOptions vm_init.
Proof. apply views_refine_spec; [split_and!; simpl; done|apply refines_init]. Defined.

Lemma app_refines_spec_witness :
  refines (vm_step remote InitialLoad vm_init)
          (run remote (app_action InitialLoad initialState) initialState).1 /\
  vm_wf (vm_step remote InitialLoad vm_init).
Proof.
  apply (app_refines_spec remote (paged_remote_cursors_truthy _ _ _)).
  - split_and!; simpl; done.
  - apply refines_init.
  - simpl. exact I.
Defined.

(** The spec's scenario run as one sequence: the mount, "View More", a
    selection of Ann, the no-filter entry. *)
Lemma app_runs_refine_spec_witness :
  let acts := [InitialLoad; LoadMore; SelectEmployee ann; SelectEmployee EMPTY_EMPLOYEE] in
  refines (vm_run remote acts vm_init) (app_run remote acts initialState) /\
  transactions (app_run remote acts initialState) = vm_displayed (vm_run remote acts vm_init) /\
  unfiltered initialState `prefix_of` unfiltered (app_run remote acts initialState).
Proof.
  apply (app_runs_refine_spec remote (paged_remote_cursors_truthy _ _ _)).
  - split_and!; simpl; done.
  - apply refines_init.
  - vm_compute. split_and!; try done. intros _. by eexists.
Defined.
