(* ===== verification/Sessions.v ===== *)
(** * Sessions: the screen as a user drives it

    A session is the mount effect followed by user events, each handler
    running to completion before the next event ([App.session]); a click
    on "View More" fires only when the button is shown and enabled.  The
    theorems here follow a whole session: the pages of the feed are
    displayed each exactly once and in order, and the spec's scenarios
    (section 8) hold. *)

From stdpp Require Import base list options strings.
From S2P Require Import Prelude Types Remote Async Hooks App Handlers Scenario.

Open Scope js_scope.

(** ** User interface events

    What the user (or React, for the effect) can trigger; a click on the
    "View More" button only fires when the button is shown and enabled. *)
Inductive UiEvent :=
| Rendered
| SelectChange (newValue : option Employee)
| ViewMoreClick.

Definition viewMoreClickable (s : State) : bool :=
  shouldShowViewMore s && negb (viewMoreDisabled s).

Definition handler (ev : UiEvent) (snap : State) : Prog State :=
  match ev with
  | Rendered => loadEffect snap
  | SelectChange v => handleEmployeeChange snap v
  | ViewMoreClick => if viewMoreClickable snap then loadMoreTransactions snap else Done
  end.

(** One event after another, each handler running to completion on the
    state the previous one left. *)
Fixpoint session (R : Remote) (evs : list UiEvent) (s : State) : State :=
  match evs with
  | [] => s
  | ev :: evs' => session R evs' (run R (handler ev s) s).1
  end.

(** States of the spec's scenarios: after the mount, after selecting Ann,
    and a page whose cursor is the number [0]. *)
Definition mounted : State := session remote [Rendered] initialState.

Definition filtered : State := session remote [SelectChange (Some ann)] mounted.

Definition zero_cursor_state : State :=
  MkState (Hook.mk (Some [ann]) false) (Hook.mk (Some (Page.mk [t1] (Some 0%N))) false)
          (Hook.mk None false) false None [].

Section Pagination.
Context (R : Remote).

(** Between two clicks, unfiltered and idle. *)
Definition idle (s : State) : Prop :=
  employeeId s = None /\ isLoading s = false /\ transactionsLoading s = false.

Lemma session_app evs1 evs2 s :
  session R (evs1 ++ evs2) s = session R evs2 (session R evs1 s).
Proof. revert s. induction evs1; simpl; auto. Qed.

(** Clicks on a button that is hidden or disabled change nothing. *)
Lemma clicks_ignored k s :
  viewMoreClickable s = false -> session R (repeat ViewMoreClick k) s = s.
Proof. intros H. induction k as [|k IH]; [done|]. simpl. by rewrite H. Qed.

Lemma transactions_unfiltered s p :
  employeeId s = None -> paginatedTransactions s = Some p ->
  transactions s = Some (allTransactions s ++ Page.data p).
Proof. intros Hf Hp. unfold transactions. by rewrite Hf, Hp. Qed.

(** An idle state whose page has a cursor shows an enabled button. *)
Lemma idle_clickable s p n :
  idle s -> paginatedTransactions s = Some p -> Page.nextPage p = Some n ->
  viewMoreClickable s = true.
Proof.
  intros (Hf & Hi & Ht) Hp Hn.
  unfold viewMoreClickable, shouldShowViewMore, viewMoreDisabled, nextPageOf.
  by rewrite Hf, Hi, Ht, Hp; simpl; rewrite Hn.
Qed.

(** One enabled click from an idle state whose page points at cursor
    [n]: idle again, the fetched page latest, the displayed list grown
    by exactly that page. *)
Lemma click_step s p n p' :
  idle s -> paginatedTransactions s = Some p -> Page.nextPage p = Some n -> n <> 0%N ->
  fetchTransactionsPage R (Some n) = Resolved p' ->
  let s' := session R [ViewMoreClick] s in
  idle s' /\ paginatedTransactions s' = Some p' /\
  transactions s' = Some (allTransactions s ++ Page.data p ++ Page.data p').
Proof.
  intros Hidle Hp Hn Hn0 Hp'. simpl.
  rewrite (idle_clickable s p n), (loadMore_ok R s s p n p') by done.
  destruct Hidle as (Hf & Hi & Ht). simpl.
  split_and!; [done..|]. unfold transactions. simpl. rewrite Hf. simpl.
  by rewrite app_assoc.
Qed.

(** Following the feed from cursor [c]: [k] clicks display exactly the
    first [k] pages of what the remote serves, appended in order. *)
Lemma clicks_follow_feed c qs :
  serves R c qs ->
  forall k s p n, idle s -> paginatedTransactions s = Some p ->
    Page.nextPage p = Some n -> n <> 0%N -> c = Some n ->
    transactions (session R (repeat ViewMoreClick k) s) =
      Some (allTransactions s ++ Page.data p ++ concat (map Page.data (take k qs))).
Proof.
  induction 1 as [c q Hq Hlast|c q m qs Hq Hm Hm0 _ IH];
    intros [|k] s p n Hidle Hp Hn Hn0 ->;
    try (simpl; rewrite app_nil_r; apply transactions_unfiltered; [apply Hidle|done]).
  - destruct (click_step s p n q) as (Hidle' & Hp' & Htx); [done..|].
    change (repeat ViewMoreClick (S k)) with ([ViewMoreClick] ++ repeat ViewMoreClick k).
    rewrite session_app, clicks_ignored.
    + rewrite Htx. cbn. rewrite take_nil. cbn. by rewrite !app_nil_r.
    + destruct Hidle' as (Hf & _). unfold viewMoreClickable, shouldShowViewMore, nextPageOf.
      rewrite Hp'. simpl. rewrite Hlast. by rewrite andb_false_r.
  - destruct (click_step s p n q) as (Hidle' & Hp' & Htx); [done..|].
    change (repeat ViewMoreClick (S k)) with ([ViewMoreClick] ++ repeat ViewMoreClick k).
    rewrite session_app, (IH k _ q m); [|done..].
    cbn. rewrite !app_assoc. do 2 f_equal.
    revert Htx. unfold transactions. destruct Hidle' as (-> & _).
    rewrite Hp'. simpl. intros [= Htx]. by rewrite <- app_assoc, <- Htx.
Qed.

(** Following the feed from cursor [c], the state stays idle and [k]
    clicks hold the [k]-th page served (the last one once the feed is
    exhausted). *)
Lemma clicks_reach_page c qs :
  serves R c qs ->
  forall k s p n, idle s -> paginatedTransactions s = Some p ->
    Page.nextPage p = Some n -> n <> 0%N -> c = Some n ->
    let s' := session R (repeat ViewMoreClick k) s in
    idle s' /\ paginatedTransactions s' = Some (List.last (take k qs) p).
Proof.
  induction 1 as [c q Hq Hlast|c q m qs Hq Hm Hm0 _ IH];
    intros [|k] s p n Hidle Hp Hn Hn0 ->; try done;
    destruct (click_step s p n q) as (Hidle' & Hp' & _); try done;
    change (repeat ViewMoreClick (S k)) with ([ViewMoreClick] ++ repeat ViewMoreClick k);
    cbv zeta; rewrite session_app.
  - rewrite clicks_ignored; [split; [done|rewrite Hp'; cbn; by rewrite take_nil]|].
    destruct Hidle' as (Hf & _). unfold viewMoreClickable, shouldShowViewMore, nextPageOf.
    rewrite Hp'. simpl. rewrite Hlast. by rewrite andb_false_r.
  - rewrite firstn_cons, last_cons_default. by apply (IH k _ q m).
Qed.
End Pagination.

Section Mount.
Context (R : Remote).

(** The mount effect, both fetches resolving. *)
Lemma mount_ok es p :
  listEmployees R = Resolved es -> fetchTransactionsPage R None = Resolved p ->
  session R [Rendered] initialState =
    MkState (Hook.mk (Some es) false) (Hook.mk (Some p) false) (Hook.mk None false)
            false None [].
Proof.
  intros Hes Hp. cbn [session handler]. rewrite effect_idle by done.
  by rewrite (loadAll_ok R initialState initialState es p).
Qed.

(** C1. After the mount and any number [k] of clicks on "View More", the
    list shows the first [k+1] pages the remote serves, each exactly once
    and in fetch order (spec section 8, first property). *)
Theorem pagination_shows_every_page_once es ps k :
  listEmployees R = Resolved es -> serves R None ps ->
  transactions (session R (Rendered :: repeat ViewMoreClick k) initialState) =
    Some (concat (map Page.data (take (S k) ps))).
Proof.
  intros Hes Hps.
  change (Rendered :: repeat ViewMoreClick k) with ([Rendered] ++ repeat ViewMoreClick k).
  rewrite session_app.
  inversion Hps as [c p Hp Hlast|c p n qs Hp Hn Hn0 Hqs]; subst; rewrite (mount_ok es p) by done.
  - rewrite clicks_ignored.
    + cbn. by rewrite take_nil, !app_nil_r.
    + unfold viewMoreClickable, shouldShowViewMore, nextPageOf. simpl. by rewrite Hlast.
  - rewrite (clicks_follow_feed R _ qs Hqs k _ p n); [done|by split_and!|done..].
Qed.

(** C19. The displayed list never outgrows the feed: after the mount and
    any number [k] of clicks it is no longer than all the pages the remote
    serves put together, and once [k+1] reaches the number of pages the
    "View More" button is hidden and further clicks change nothing. *)
Theorem view_more_bounded es ps k :
  listEmployees R = Resolved es -> serves R None ps ->
  let s := session R (Rendered :: repeat ViewMoreClick k) initialState in
  length (default [] (transactions s)) <= length (concat (map Page.data ps)) /\
  (length ps <= S k ->
   shouldShowViewMore s = false /\ forall j, session R (repeat ViewMoreClick j) s = s).
Proof.
  intros Hes Hps. cbv zeta. rewrite (pagination_shows_every_page_once es ps k) by done.
  split; [simpl; rewrite <- firstn_map; apply length_concat_take|intros Hk].
  assert (shouldShowViewMore (session R (Rendered :: repeat ViewMoreClick k) initialState) = false)
    as Hs; [|split; [done|intros j; apply clicks_ignored; unfold viewMoreClickable; by rewrite Hs]].
  change (Rendered :: repeat ViewMoreClick k) with ([Rendered] ++ repeat ViewMoreClick k).
  rewrite session_app.
  inversion Hps as [c p Hp Hlast|c p n qs Hp Hn Hn0 Hqs]; subst; rewrite (mount_ok es p) by done.
  - rewrite clicks_ignored; unfold viewMoreClickable, shouldShowViewMore, nextPageOf; simpl;
      by rewrite Hlast.
  - destruct (clicks_reach_page R _ qs Hqs k
      (MkState (Hook.mk (Some es) false) (Hook.mk (Some p) false) (Hook.mk None false) false None [])
      p n) as [(Hf & _) Hp']; [by split_and!|done..|].
    unfold shouldShowViewMore, nextPageOf. rewrite Hp', Hf. simpl in *.
    rewrite take_ge by lia. by rewrite (serves_last_page R _ qs p Hqs).
Qed.
End Mount.

(** ** The spec's scenarios (section 8) *)


Lemma pagination_shows_every_page_once_witness :
  transactions (session remote (Rendered :: repeat ViewMoreClick 1) initialState) =
    Some (concat (map Page.data (take 2 pages))).
Proof.
  apply (pagination_shows_every_page_once remote [ann] pages 1).
  - reflexivity.
  - eapply serves_more; [reflexivity|reflexivity|lia|].
    apply serves_last; reflexivity.
Defined.

Lemma view_more_bounded_witness :
  let s := session remote (Rendered :: repeat ViewMoreClick 1) initialState in
  length (default [] (transactions s)) <= length (concat (map Page.data pages)) /\
  (length pages <= 2 ->
   shouldShowViewMore s = false /\ forall j, session remote (repeat ViewMoreClick j) s = s).
Proof.
  apply (view_more_bounded remote [ann] pages 1).
  - reflexivity.
  - eapply serves_more; [reflexivity|reflexivity|lia|].
    apply serves_last; reflexivity.
Defined.

(** ** Filter changes *)

Section Filter.
Context (R : Remote).

(** A change of the select never touches the cached employees, the feed
    or the accumulated pages once the employees are loaded. *)
Lemma select_keeps_feed s v :
  employees s <> None ->
  let s1 := session R [SelectChange v] s in
  employeesHook s1 = employeesHook s /\ paginatedHook s1 = paginatedHook s /\
  allTransactions s1 = allTransactions s.
Proof.
  intros He. cbn [session handler]. destruct v as [e|]; [|done].
  destruct (String.eqb (Employee.id e) "") eqn:Ee.
  - apply String.eqb_eq in Ee. rewrite change_clear by done.
    cbn [run]. by rewrite loadAll_skip by (left; done).
  - apply String.eqb_neq in Ee. rewrite change_select by done.
    destruct (fetchTransactionsForEmployee R (Employee.id e)) as [l|err] eqn:Hf.
    + by rewrite (loadByEmployee_ok R s _ l).
    + by rewrite (loadByEmployee_error R s _ err).
Qed.

(** C7. Whatever the remote answers and whatever is selected, a change of
    the employee filter leaves [allTransactions] (the accumulated pages of
    the unfiltered feed) as it was (spec section 3, third invariant). *)
Theorem select_never_mutates_accumulation s v :
  allTransactions (session R [SelectChange v] s) = allTransactions s.
Proof.
  cbn [session handler]. destruct v as [e|]; [|done].
  destruct (String.eqb (Employee.id e) "") eqn:Ee.
  - apply String.eqb_eq in Ee. rewrite change_clear by done. cbn [run].
    destruct (employees s) as [es|] eqn:He.
    { rewrite loadAll_skip by (left; by rewrite He). done. }
    destruct (employeesLoading s) eqn:Hl.
    { rewrite loadAll_skip by (by right). done. }
    destruct (listEmployees R) as [es|err] eqn:Hes.
    + destruct (fetchTransactionsPage R (nextCursor (paginatedTransactions s))) as [p|err] eqn:Hp.
      * by rewrite (loadAll_ok R s _ es p).
      * by rewrite (loadAll_page_error R s _ es err).
    + by rewrite (loadAll_employees_error R s _ err).
  - apply String.eqb_neq in Ee. rewrite change_select by done.
    destruct (fetchTransactionsForEmployee R (Employee.id e)) as [l|err] eqn:Hf.
    + by rewrite (loadByEmployee_ok R s _ l).
    + by rewrite (loadByEmployee_error R s _ err).
Qed.

(** C9. Selecting an employee whose transactions the remote returns shows
    exactly those transactions, whatever was accumulated before, with no
    "View More" button (spec section 8, third scenario and fourth
    property). *)
Theorem select_shows_only_employee s e l :
  Employee.id e <> ""%string ->
  fetchTransactionsForEmployee R (Employee.id e) = Resolved l ->
  let s' := session R [SelectChange (Some e)] s in
  transactions s' = Some l /\ shouldShowViewMore s' = false /\ isLoading s' = false.
Proof.
  intros Ee Hf. cbn [session handler]. rewrite change_select by done.
  rewrite (loadByEmployee_ok R s _ l) by done.
  assert (truthy (Some (Employee.id e)) = true) as Ht by by apply truthy_string_iff.
  unfold transactions, shouldShowViewMore, js_not. simpl. by rewrite Ht.
Qed.

(** C6. Selecting an employee and then the "no filter" entry, once the
    employees are loaded, displays exactly the unfiltered list shown
    before, whatever the remote answered for the employee: the
    accumulated data is restored unchanged and never mixed with the
    employee's list (spec section 8, third property, option (a)). *)
Theorem select_then_clear_restores s e :
  employeeId s = None -> employees s <> None ->
  transactions (session R [SelectChange (Some e); SelectChange (Some EMPTY_EMPLOYEE)] s) =
    transactions s.
Proof.
  intros Hf He.
  change [SelectChange (Some e); SelectChange (Some EMPTY_EMPLOYEE)]
    with ([SelectChange (Some e)] ++ [SelectChange (Some EMPTY_EMPLOYEE)]).
  rewrite session_app. destruct (select_keeps_feed s (Some e) He) as (He1 & Hp1 & Ha1).
  set (s1 := session R [SelectChange (Some e)] s) in *.
  cbn [session handler]. rewrite change_clear by done. cbn [run].
  rewrite loadAll_skip by (left; unfold employees; by rewrite He1).
  unfold transactions, paginatedTransactions. simpl. rewrite Hf. simpl.
  by rewrite Hp1, Ha1.
Qed.
End Filter.

(** ** Clicks, the mount, and the event loop *)

Section Clicks.
Context (R : Remote).

(** C3. A click on the enabled "View More" button while idle grows the
    displayed list by exactly the page fetched with the displayed page's
    cursor, appended at the end; [allTransactions] absorbs the page the
    render displayed (not the one just fetched, despite the comment at line
    72), which is why no page is displayed twice (spec section 4.1,
    [loadMoreTransactions] guarantee). *)
Theorem click_grows_by_fetched_page s p n p' :
  idle s -> paginatedTransactions s = Some p -> Page.nextPage p = Some n -> n <> 0%N ->
  fetchTransactionsPage R (Some n) = Resolved p' ->
  let s' := session R [ViewMoreClick] s in
  transactions s' = (fun l => l ++ Page.data p') <$> transactions s /\
  allTransactions s' = allTransactions s ++ Page.data p /\
  paginatedTransactions s' = Some p'.
Proof.
  intros Hidle Hp Hn Hn0 Hp'. cbv zeta.
  destruct (click_step R s p n p') as (_ & Hp2 & Htx); [done..|].
  cbv zeta in Htx, Hp2. rewrite Htx, (transactions_unfiltered s p); [|apply Hidle|done].
  split_and!; [by rewrite app_assoc| |done].
  cbn [session handler].
  by rewrite (idle_clickable s p n), (loadMore_ok R s s p n p').
Qed.

(** C8. Once the employees are loaded the mount effect and
    [loadAllTransactions] are the empty program: no fetch is issued, for any
    remote, and the state is left as it was (spec section 8,
    idempotence). *)
Theorem initial_load_idempotent s :
  employees s <> None ->
  handler Rendered s = Done /\ loadAllTransactions s = Done /\
  forall R', session R' [Rendered] s = s.
Proof.
  intros He. assert (loadEffect s = Done) as Hd.
  { unfold loadEffect. destruct (employees s); [|done].
    by rewrite andb_false_r, andb_false_l. }
  split_and!; [done|by apply loadAll_skip; left|].
  intros R'. cbn [session handler]. by rewrite Hd.
Qed.

(** C10. While an employee filter is set, no "View More" button is rendered
    and any number of clicks leaves the state unchanged, whatever the
    pagination cursor (spec section 8, fourth property). *)
Theorem filter_disables_view_more s :
  truthy (employeeId s) = true ->
  viewMore (App s) = None /\ forall k, session R (repeat ViewMoreClick k) s = s.
Proof.
  intros Hf. assert (shouldShowViewMore s = false) as Hs
    by (unfold shouldShowViewMore, js_not; by rewrite Hf).
  split; [unfold App; simpl; by rewrite Hs|].
  intros k. apply clicks_ignored. unfold viewMoreClickable. by rewrite Hs.
Qed.

End Clicks.

Lemma click_grows_by_fetched_page_witness :
  let s' := session remote [ViewMoreClick] mounted in
  transactions s' = (fun l => l ++ [t3]) <$> transactions mounted /\
  allTransactions s' = allTransactions mounted ++ [t1; t2] /\
  paginatedTransactions s' = Some (Page.mk [t3] None).
Proof.
  apply (click_grows_by_fetched_page remote mounted (Page.mk [t1; t2] (Some 1%N)) 1%N
           (Page.mk [t3] None)).
  - vm_compute. split_and!; reflexivity.
  - vm_compute. reflexivity.
  - reflexivity.
  - lia.
  - vm_compute. reflexivity.
Defined.

Lemma initial_load_idempotent_witness :
  handler Rendered mounted = Done /\ loadAllTransactions mounted = Done /\
  forall R', session R' [Rendered] mounted = mounted.
Proof. apply initial_load_idempotent. vm_compute. discriminate. Defined.

Lemma filter_disables_view_more_witness :
  viewMore (App filtered) = None /\
  forall k, session remote (repeat ViewMoreClick k) filtered = filtered.
Proof. apply filter_disables_view_more. vm_compute. reflexivity. Defined.

Lemma select_shows_only_employee_witness :
  let s' := session remote [SelectChange (Some ann)] mounted in
  transactions s' = Some [t4] /\ shouldShowViewMore s' = false /\ isLoading s' = false.
Proof.
  apply (select_shows_only_employee remote mounted ann [t4]).
  - vm_compute. discriminate.
  - reflexivity.
Defined.

Lemma select_then_clear_restores_witness :
  transactions (session remote [SelectChange (Some ann); SelectChange (Some EMPTY_EMPLOYEE)] mounted) =
    transactions mounted.
Proof.
  apply select_then_clear_restores.
  - vm_compute. reflexivity.
  - vm_compute. discriminate.
Defined.

(** ** A falsy cursor *)

Section ZeroCursor.
Context (R : Remote).

(** C16. A page whose cursor is the number [0] (a falsy cursor) shows an
    enabled "View More" button (line 83 tests [!= null]) on which a click
    does nothing (line 67 tests truthiness).  The spec treats the cursor
    as an opaque token and does not cover this case. *)
Theorem zero_cursor_inert_button s p :
  idle s -> paginatedTransactions s = Some p -> Page.nextPage p = Some 0%N ->
  viewMoreClickable s = true /\ session R [ViewMoreClick] s = s.
Proof.
  intros Hidle Hp Hn. pose proof (idle_clickable s p 0%N Hidle Hp Hn) as Hc.
  split; [done|]. cbn [session handler]. rewrite Hc.
  rewrite loadMore_skip; [done|]. unfold nextPageOf. by rewrite Hp; simpl; rewrite Hn.
Qed.
End ZeroCursor.

Lemma zero_cursor_inert_button_witness :
  viewMoreClickable zero_cursor_state = true /\
  session remote [ViewMoreClick] zero_cursor_state = zero_cursor_state.
Proof.
  apply (zero_cursor_inert_button remote zero_cursor_state (Page.mk [t1] (Some 0%N))).
  - vm_compute. split_and!; reflexivity.
  - reflexivity.
  - reflexivity.
Defined.
