(* ===== verification/Errors.v ===== *)
(** * Rejected fetches (spec section 7)

    [recovers before after] is what the spec asks of an action whose fetch
    rejects: the displayed list and the filter are those of before, and
    the busy flag is clear.  The component keeps the list but never clears
    [isLoading] (no [finally] around the awaits), and a failed employee
    selection has already switched the filter.  Each theorem says what the
    component does and which part of [recovers] fails. *)

From stdpp Require Import base list options strings.
From S2P Require Import Prelude Types Remote Scenario Async Hooks App Handlers Sessions.

Open Scope js_scope.

Definition recovers (before after : State) : Prop :=
  transactions after = transactions before /\
  employeeId after = employeeId before /\
  isLoading after = false.

Lemma busy_not_recovers before after : isLoading after = true -> ~ recovers before after.
Proof. intros Hb (_ & _ & Hr). congruence. Qed.

Section Errors.
Context (R : Remote).

(** C11. A rejected "View More" fetch leaves the list as it was but never
    clears [isLoading] (line 70 is not reached): the button stays disabled
    with the label "Loading...", and every later click is ignored.  The
    spec (section 7) asks for [isBusy] to be cleared. *)
Theorem failed_click_disables_view_more s p n e :
  idle s -> paginatedTransactions s = Some p -> Page.nextPage p = Some n -> n <> 0%N ->
  fetchTransactionsPage R (Some n) = Rejected e ->
  let s' := session R [ViewMoreClick] s in
  transactions s' = transactions s /\ isLoading s' = true /\ ~ recovers s s' /\
  viewMoreText s' = "Loading..."%string /\
  forall k, session R (repeat ViewMoreClick k) s' = s'.
Proof.
  intros Hidle Hp Hn Hn0 He. cbv zeta. cbn [session handler].
  rewrite (idle_clickable s p n), (loadMore_error R s s p n e) by done.
  destruct Hidle as (Hf & _). simpl.
  split_and!; [|done|by apply busy_not_recovers|done|].
  - unfold transactions, paginatedTransactions in *. simpl. by rewrite Hf, Hp.
  - intros k. apply clicks_ignored. unfold viewMoreClickable, viewMoreDisabled.
    simpl. by rewrite andb_false_r.
Qed.

(** C13. A rejected employee list at mount leaves [isLoading] set (line
    33 is never reached): the select stays in its loading state with no
    entry, and the next render's effect issues the whole initial load
    again, from the same program. *)
Theorem failed_mount_keeps_loading e :
  listEmployees R = Rejected e ->
  let s := session R [Rendered] initialState in
  isLoading s = true /\ ~ recovers initialState s /\
  selectIsLoading s = true /\ selectItems s = [] /\
  handler Rendered s = handler Rendered initialState.
Proof.
  intros He. cbv zeta. cbn [session handler].
  rewrite effect_idle by done. rewrite (loadAll_employees_error R _ _ e) by done.
  split_and!; [done|by apply busy_not_recovers|done..].
Qed.

(** C12. When the remote rejects the newly selected employee's
    transactions, the filter has already switched (line 40) but the list
    still holds the previous employee's transactions: the screen shows the
    new filter over stale data, and [isLoading] stays set.  The spec
    (section 7) asks that a failure leave the view model untouched. *)
Theorem failed_select_shows_stale_list s e err :
  Employee.id e <> ""%string ->
  fetchTransactionsForEmployee R (Employee.id e) = Rejected err ->
  let s' := session R [SelectChange (Some e)] s in
  employeeId s' = Some (Employee.id e) /\
  transactions s' = transactionsByEmployee s /\ isLoading s' = true /\ ~ recovers s s'.
Proof.
  intros Ee Hf. cbv zeta. cbn [session handler]. rewrite change_select by done.
  rewrite (loadByEmployee_error R s _ err) by done.
  assert (truthy (Some (Employee.id e)) = true) as Ht by by apply truthy_string_iff.
  split_and!; [done| |done|by apply busy_not_recovers].
  unfold transactions. simpl. by rewrite Ht.
Qed.

(** C28. The stuck [isLoading] of a rejected "View More" fetch (C11) is
    shared with the other handlers, so an unrelated action clears it:
    selecting an employee whose transactions arrive, then the "no
    filter" entry, recovers the state the failed click left, in the
    spec's sense (same list, same filter, not busy), and the button is
    enabled again on the same page, whose cursor the next click
    retries. *)
Theorem failed_click_recovered_by_select s p n e e1 l :
  idle s -> employees s <> None -> paginatedTransactions s = Some p ->
  Page.nextPage p = Some n -> n <> 0%N -> fetchTransactionsPage R (Some n) = Rejected e ->
  Employee.id e1 <> ""%string -> fetchTransactionsForEmployee R (Employee.id e1) = Resolved l ->
  let s' := session R [ViewMoreClick; SelectChange (Some e1); SelectChange (Some EMPTY_EMPLOYEE)] s in
  isLoading (session R [ViewMoreClick] s) = true /\
  recovers s s' /\ viewMoreClickable s' = true /\ paginatedTransactions s' = Some p.
Proof.
  intros Hidle Hem Hp Hn Hn0 He Ee Hl. cbv zeta. cbn [session handler].
  rewrite (idle_clickable s p n), (loadMore_error R s s p n e) by done. cbn [fst].
  rewrite (change_select _ e1), (loadByEmployee_ok R _ _ l) by done. cbn [fst].
  rewrite change_clear by reflexivity. cbn [run fst].
  rewrite loadAll_skip by (left; exact Hem). cbn [run fst].
  destruct Hidle as (Hf & Hi & Ht).
  unfold recovers, viewMoreClickable, shouldShowViewMore, viewMoreDisabled, nextPageOf,
    transactions, transactionsLoading, paginatedTransactions in *.
  simpl. rewrite Hf, Hp. simpl. rewrite Hn. by split_and!.
Qed.

End Errors.

Lemma failed_click_disables_view_more_witness :
  let s' := session flaky_remote [ViewMoreClick] mounted in
  transactions s' = transactions mounted /\ isLoading s' = true /\ ~ recovers mounted s' /\
  viewMoreText s' = "Loading..."%string /\
  forall k, session flaky_remote (repeat ViewMoreClick k) s' = s'.
Proof.
  apply (failed_click_disables_view_more flaky_remote mounted
           (Page.mk [t1; t2] (Some 1%N)) 1%N FetchError_transport).
  - vm_compute. split_and!; reflexivity.
  - vm_compute. reflexivity.
  - reflexivity.
  - lia.
  - reflexivity.
Defined.

Lemma failed_mount_keeps_loading_witness :
  let s := session offline_remote [Rendered] initialState in
  isLoading s = true /\ ~ recovers initialState s /\
  selectIsLoading s = true /\ selectItems s = [] /\
  handler Rendered s = handler Rendered initialState.
Proof. apply (failed_mount_keeps_loading offline_remote FetchError_transport). reflexivity. Defined.

Lemma failed_select_shows_stale_list_witness :
  let s' := session remote [SelectChange (Some bob)] filtered in
  employeeId s' = Some "2"%string /\
  transactions s' = transactionsByEmployee filtered /\ isLoading s' = true /\
  ~ recovers filtered s'.
Proof.
  apply (failed_select_shows_stale_list remote filtered bob FetchError_transport).
  - vm_compute. discriminate.
  - vm_compute. reflexivity.
Defined.

Lemma failed_click_recovered_by_select_witness :
  let s' := session pages_down_remote
              [ViewMoreClick; SelectChange (Some ann); SelectChange (Some EMPTY_EMPLOYEE)] mounted in
  isLoading (session pages_down_remote [ViewMoreClick] mounted) = true /\
  recovers mounted s' /\ viewMoreClickable s' = true /\
  paginatedTransactions s' = Some (Page.mk [t1; t2] (Some 1%N)).
Proof.
  apply (failed_click_recovered_by_select pages_down_remote mounted
           (Page.mk [t1; t2] (Some 1%N)) 1%N FetchError_transport ann [t4]).
  - vm_compute. split_and!; reflexivity.
  - vm_compute. discriminate.
  - vm_compute. reflexivity.
  - reflexivity.
  - lia.
  - reflexivity.
  - vm_compute. discriminate.
  - reflexivity.
Defined.
