(* ===== verification/EventLoop.v ===== *)
(** * Interleavings on the JavaScript event loop (spec section 5)

    [loadMoreTransactions] has no in-flight guard of its own: it relies on
    the "View More" button being disabled while [isLoading] is set.  Two
    invocations whose fetches overlap both read the same render's page and
    cursor, so the page is appended twice ([raw_double_click]).  Through
    the UI ([double_click]: two clicks on the button before the first
    fetch settles) the second click finds the button disabled, and the
    pair behaves as one click. *)

From stdpp Require Import base list options strings.
From S2P Require Import Prelude Types Remote Scenario Async Hooks App Handlers Sessions.

Open Scope js_scope.

(** [loadMoreTransactions] invoked twice, then both fetches settled. *)
Definition raw_double_click : list (@Event State) :=
  [Invoke loadMoreTransactions; Invoke loadMoreTransactions; Settle 0; Settle 0].

(** Two clicks on the button before the first fetch settles. *)
Definition double_click : list (@Event State) :=
  [Invoke (handler ViewMoreClick); Invoke (handler ViewMoreClick); Settle 0].

(** Select employee [a], then employee [b] before [a]'s list arrives;
    [b]'s fetch settles first. *)
Definition crossed_selects (a b : Employee) : list (@Event State) :=
  [Invoke (handler (SelectChange (Some a))); Invoke (handler (SelectChange (Some b)));
   Settle 1; Settle 0].

(** Run the event loop as far as the remote's answers are known. *)
(** What the screen shows of a configuration: the requests in flight, the
    select's loading label and entries, the list, and [isLoading]. *)
Definition observe (c : option (@Config State)) :
    option (list Request * string * list Employee * option (list Transaction) * bool) :=
  (fun c => (map req (tasks c), loadingLabel (cur c), selectItems (cur c),
             transactions (cur c), isLoading (cur c))) <$> c.

Ltac loop_solve :=
  app_run;
  repeat first
    [ progress (unfold step_event, spawn, resume in *; simpl in *)
    | match goal with H : ?l = _ |- context [?l] => rewrite H; simpl end ];
  try reflexivity.

Section Interleavings.
Context (R : Remote).

(** C4. Two [loadMoreTransactions] in flight at once (the UI not disabling
    the button) both fetch the page after the displayed one and both
    append the displayed page: it is shown twice.  The spec (section 5)
    requires the mutations to be serialised independently of the UI. *)
Theorem concurrent_loads_duplicate_page s p n p' :
  employeeId s = None -> paginatedTransactions s = Some p ->
  Page.nextPage p = Some n -> n <> 0%N ->
  fetchTransactionsPage R (Some n) = Resolved p' ->
  exists c, exec R raw_double_click (Cfg s []) = Some c /\ tasks c = [] /\
    transactions (cur c) =
      Some (allTransactions s ++ Page.data p ++ Page.data p ++ Page.data p').
Proof.
  intros Hf Hp Hn Hn0 Hp'.
  assert (truthy (Some n) = true) as Ht by (apply truthy_N_iff, Hn0).
  unfold raw_double_click. eexists. split; [loop_solve|].
  split; [done|]. unfold transactions. simpl. rewrite Hf. simpl. by rewrite <- !app_assoc.
Qed.

(** C5. Through the UI, a second click while the first one's fetch is in
    flight finds the button disabled and issues nothing: the two clicks
    leave exactly the state one click leaves. *)
Theorem double_click_appends_once s p n p' :
  idle s -> paginatedTransactions s = Some p ->
  Page.nextPage p = Some n -> n <> 0%N ->
  fetchTransactionsPage R (Some n) = Resolved p' ->
  exec R double_click (Cfg s []) = Some (Cfg (session R [ViewMoreClick] s) []).
Proof.
  intros Hidle Hp Hn Hn0 Hp'.
  cbn [session handler]. rewrite (idle_clickable s p n), (loadMore_ok R s s p n p') by done.
  destruct Hidle as (Hf & Hi & Htl).
  assert (truthy (Some n) = true) as Ht by (apply truthy_N_iff, Hn0).
  unfold double_click, handler.
  unfold viewMoreClickable, shouldShowViewMore, viewMoreDisabled, js_not in *.
  loop_solve. destruct s; simpl in *; subst; reflexivity.
Qed.

(** C17. [loadTransactionsByEmployee] keeps whichever response settles
    last: when the user selects [a] then [b] and [b]'s transactions arrive
    before [a]'s, the filter shows [b] while the list shows [a]'s
    transactions.  (Whether the select is disabled while [isLoading] is up
    to [InputSelect], which is not part of [src/].) *)
Theorem crossed_selects_show_wrong_list s a b la lb :
  Employee.id a <> ""%string -> Employee.id b <> ""%string ->
  fetchTransactionsForEmployee R (Employee.id a) = Resolved la ->
  fetchTransactionsForEmployee R (Employee.id b) = Resolved lb ->
  exists c, exec R (crossed_selects a b) (Cfg s []) = Some c /\ tasks c = [] /\
    employeeId (cur c) = Some (Employee.id b) /\ transactions (cur c) = Some la.
Proof.
  intros Ha Hb Hla Hlb.
  assert (truthy (Some (Employee.id b)) = true) as Ht by by apply truthy_string_iff.
  rewrite <- String.eqb_neq in Ha, Hb.
  unfold crossed_selects, handler. eexists. split; [loop_solve|].
  unfold transactions. simpl. by rewrite Ht.
Qed.

(** C14. The mount on the event loop, one settlement at a time: the
    effect first asks for the employees only, while the select shows
    "Loading employees..." and no entry; once they arrive the select offers
    the sentinel then the employees, and the first page (cursor [null]) is
    requested while the list is still empty and [isLoading] set; once it
    arrives the list is that page and nothing is loading (spec section
    4.1, [initialLoad] ordering). *)
Theorem mount_fetches_in_order es p :
  listEmployees R = Resolved es -> fetchTransactionsPage R None = Resolved p ->
  let c1 := step_event R (Invoke (handler Rendered)) (Cfg initialState []) in
  let c2 := c1 ≫= step_event R (Settle 0) in
  let c3 := c2 ≫= step_event R (Settle 0) in
  observe c1 = Some ([ListEmployees], "Loading employees..."%string, [], Some [], true) /\
  observe c2 = Some ([TransactionsPage None], ""%string, EMPTY_EMPLOYEE :: es, Some [], true) /\
  observe c3 = Some ([], ""%string, EMPTY_EMPLOYEE :: es, Some (Page.data p), false).
Proof. intros Hes Hp. unfold observe, handler. split_and!; loop_solve. Qed.
End Interleavings.

Lemma concurrent_loads_duplicate_page_witness :
  exists c, exec remote raw_double_click (Cfg mounted []) = Some c /\ tasks c = [] /\
    transactions (cur c) = Some ([] ++ [t1; t2] ++ [t1; t2] ++ [t3]).
Proof.
  apply (concurrent_loads_duplicate_page remote mounted (Page.mk [t1; t2] (Some 1%N)) 1%N
           (Page.mk [t3] None)).
  - vm_compute. reflexivity.
  - vm_compute. reflexivity.
  - reflexivity.
  - lia.
  - reflexivity.
Defined.

Lemma double_click_appends_once_witness :
  exec remote double_click (Cfg mounted []) =
    Some (Cfg (session remote [ViewMoreClick] mounted) []).
Proof.
  apply (double_click_appends_once remote mounted (Page.mk [t1; t2] (Some 1%N)) 1%N
           (Page.mk [t3] None)).
  - vm_compute. split_and!; reflexivity.
  - vm_compute. reflexivity.
  - reflexivity.
  - lia.
  - reflexivity.
Defined.

Lemma mount_fetches_in_order_witness :
  let c1 := step_event remote (Invoke (handler Rendered)) (Cfg initialState []) in
  let c2 := c1 ≫= step_event remote (Settle 0) in
  let c3 := c2 ≫= step_event remote (Settle 0) in
  observe c1 = Some ([ListEmployees], "Loading employees..."%string, [], Some [], true) /\
  observe c2 = Some ([TransactionsPage None], ""%string, EMPTY_EMPLOYEE :: [ann], Some [], true) /\
  observe c3 = Some ([], ""%string, EMPTY_EMPLOYEE :: [ann], Some [t1; t2], false).
Proof. apply (mount_fetches_in_order remote [ann] (Page.mk [t1; t2] (Some 1%N))); reflexivity. Defined.

Lemma crossed_selects_show_wrong_list_witness :
  exists c, exec remote (crossed_selects ann bob) (Cfg mounted []) = Some c /\ tasks c = [] /\
    employeeId (cur c) = Some "2"%string /\ transactions (cur c) = Some [t4].
Proof.
  apply (crossed_selects_show_wrong_list (paged_remote [ann; bob] [[t1; t2]; [t3]] [("1", [t4]); ("2", [t1])])
           mounted ann bob [t4] [t1]).
  - vm_compute. discriminate.
  - vm_compute. discriminate.
  - reflexivity.
  - reflexivity.
Defined.
