(* ===== verification/InputCheckbox.v ===== *)
(** * The [InputCheckbox] component
      ([src/src/components/InputCheckbox/index.tsx])

    A controlled checkbox: its props are [id], [checked] (defaulting to
    [false] when absent), [disabled] and [onChange]; its change handler
    calls [onChange] with the negation of [checked]; it renders a container
    [div], a [label] whose class list carries the checked/disabled
    modifiers and which points at the [input] by id, and the [input].
    [onChange] returns the parent's reaction, of any type [A].
    [React.memo] and [useCallback] only avoid recomputation: rendering is a
    function of the props, so they are not modelled. *)

From stdpp Require Import base list options strings.
From S2P Require Import Prelude.

Open Scope js_scope.

Record Props (A : Type) := MkProps {
  id : string;
  checked : option bool;
  disabled : option bool;
  onChange : bool -> A
}.
Arguments MkProps {A} id checked disabled onChange.
Arguments id {A} _.
Arguments checked {A} _.
Arguments disabled {A} _.
Arguments onChange {A} _ _.

(** [checked = false] in the parameter list: the default applies when the
    prop is absent. *)
Definition checkedValue {A} (props : Props A) : bool := default false (checked props).

(** [handleChange] (lines 7-9). *)
Definition handleChange {A} (props : Props A) : A := onChange props (negb (checkedValue props)).

(** [classNames(base, { name: cond, ... })]: the base class followed by
    every name whose condition is truthy, separated by spaces. *)
Definition classNames (base : string) (conds : list (string * bool)) : string :=
  String.concat " " (base :: map fst (filter (fun c => c.2 = true) conds)).

(** [`RampInputCheckbox-${id}`] *)
Definition elementId (id : string) : string := "RampInputCheckbox-" +:+ id.

Record Label := MkLabel { label_className : string; htmlFor : string }.
Record Input (A : Type) := MkInput {
  input_id : string;
  input_type : string;
  input_className : string;
  input_checked : bool;
  input_disabled : option bool;
  input_onChange : A
}.
Record Rendered (A : Type) := MkRendered {
  container_className : string;
  testId : string;
  label : Label;
  input : Input A
}.
Arguments input_id {A} _.
Arguments input_checked {A} _.
Arguments input_onChange {A} _.
Arguments label {A} _.
Arguments input {A} _.
Arguments testId {A} _.

(** The rendered tree (lines 11-28); the input's change event runs
    [handleChange]. *)
Definition InputCheckbox {A} (props : Props A) : Rendered A :=
  MkRendered _ "RampInputCheckbox--container" (elementId (id props))
    (MkLabel
       (classNames "RampInputCheckbox--label"
          [("RampInputCheckbox--label-checked", checkedValue props);
           ("RampInputCheckbox--label-disabled", truthy (disabled props))])
       (elementId (id props)))
    (MkInput _ (elementId (id props)) "checkbox" "RampInputCheckbox--input"
       (checkedValue props) (disabled props) (handleChange props)).
