(* ===== verification/Gating.v ===== *)
(** * The UI serialises the page fetches (spec section 5)

    [ui_step] is the event loop driven through the UI only: a handler
    starts on a UI event ([handler]: the guarded effect, the select, a
    click that fires only on the shown and enabled button), or one pending
    fetch settles, in any order.  Every configuration reachable from the
    first render satisfies [gated_inv].  Each task in flight continues one
    of four programs ([Kind]).  The loading flags of the employee and page
    hooks count the employee and page fetches in flight.  No page fetch is
    in flight before the employees are loaded.  Hence at most one page
    fetch is ever in flight, so no two [loadMoreTransactions] can read the
    same cursor and append the same page: the property section 5 asks
    for, obtained here from the UI wiring rather than from a guard inside
    the handler (see [EventLoop.concurrent_loads_duplicate_page]). *)

From stdpp Require Import base list options strings relations.
From S2P Require Import Prelude Types Remote Scenario Async Hooks App Handlers Sessions.

Open Scope js_scope.

Inductive ui_step (R : Remote) : @Config State -> @Config State -> Prop :=
| ui_invoke ev c : ui_step R c (spawn (handler ev (cur c)) c)
| ui_settle i t c :
    tasks c !! i = Some t ->
    ui_step R c (spawn (resume R t) (Cfg (cur c) (delete i (tasks c)))).

Definition ui_reachable (R : Remote) (c : @Config State) : Prop :=
  rtc (ui_step R) (Cfg initialState []) c.

(** Tasks waiting for a page of the feed, and for the employee list. *)
Definition is_page (t : @Pending State) : bool :=
  match req t with TransactionsPage _ => true | _ => false end.
Definition is_emp (t : @Pending State) : bool :=
  match req t with ListEmployees => true | _ => false end.

Definition count (P : @Pending State -> bool) (ts : list (@Pending State)) : nat :=
  length (List.filter P ts).

(** The programs a task in flight continues: the initial load waiting for
    the employees, then for its page; a "View More" click; an employee
    selection. *)
Inductive Kind := KLoadAll | KLoadAllPage | KLoadMore | KByEmployee.

Definition kind_prog (k : Kind) (snap : State) (i : string) : Prog State :=
  match k with
  | KLoadAll => loadAllTransactions snap
  | KLoadAllPage => fetchPaginatedTransactions snap ;;; Upd (setIsLoading false) Done
  | KLoadMore => loadMoreTransactions snap
  | KByEmployee => loadTransactionsByEmployee i
  end.

Definition task_of (t : @Pending State) : Prop :=
  exists k snap i, first_await (kind_prog k snap i) = Some t.

Record gated_inv (c : @Config State) : Prop := {
  inv_tasks : Forall task_of (tasks c);
  inv_emp : count is_emp (tasks c) = if employeesLoading (cur c) then 1 else 0;
  inv_page : count is_page (tasks c) = if transactionsLoading (cur c) then 1 else 0;
  inv_emp_none : count is_emp (tasks c) <> 0 -> employees (cur c) = None;
  inv_no_employees :
    employees (cur c) = None ->
    paginatedTransactions (cur c) = None /\ count is_page (tasks c) = 0
}.

(** The events the UI can cause: a handler started by a UI event, or a
    fetch settling. *)
Definition ui_event (e : @Event State) : Prop :=
  (exists ev, e = Invoke (handler ev)) \/ (exists i, e = Settle i).

(** The mount's first page request in flight: the effect has run and the
    employees have arrived. *)
Definition mount_page_in_flight : @Config State :=
  default (Cfg initialState [])
    (exec remote [Invoke (handler Rendered); Settle 0] (Cfg initialState [])).

(** Case on the kind of a task in flight, make it explicit, and run its
    continuation on each answer of the remote. *)
Ltac task_cases Ht :=
  let k := fresh "k" in let snap := fresh "snap" in let j := fresh "j" in
  let Hfa := fresh "Hfa" in let d := fresh "d" in
  destruct Ht as (k & snap & j & Hfa); destruct k; simpl in Hfa;
  [ unfold loadAllTransactions in Hfa; case_match; [|done]; injection Hfa as <-
  | injection Hfa as <-
  | unfold loadMoreTransactions in Hfa; case_match; [|done]; injection Hfa as <-
  | injection Hfa as <- ];
  unfold resume; simpl; destruct_fetched; simpl;
  try (destruct (Page.data <$> paginatedTransactions snap) as [d|]; [destruct (truthy d)|]).

(** ** Counting tasks *)

Lemma count_app P l1 l2 : count P (l1 ++ l2) = count P l1 + count P l2.
Proof. unfold count. by rewrite List.filter_app, length_app. Qed.

Lemma count_delete P l i t :
  l !! i = Some t -> count P l = count P (delete i l) + (if P t then 1 else 0).
Proof.
  revert i. induction l as [|x l IH]; intros [|i] Hi; simplify_eq/=.
  - unfold count. simpl. destruct (P t); simpl; lia.
  - unfold count in *. simpl. destruct (P x); simpl; rewrite (IH i Hi); lia.
Qed.

Lemma count_single P t : count P [t] = if P t then 1 else 0.
Proof. unfold count. simpl. by destruct (P t). Qed.

#[local] Hint Rewrite count_app count_single : js.

(** ** Starting a handler *)

Lemma spawn_done (c : @Config State) : spawn Done c = Cfg (cur c) (tasks c ++ []).
Proof. by destruct c. Qed.

Lemma inv_done c : gated_inv c -> gated_inv (spawn Done c).
Proof. intros H. rewrite spawn_done, app_nil_r. by destruct c. Qed.

(** The initial load starts waiting for the employees. *)
Lemma inv_start_loadAll c snap :
  gated_inv c -> employees snap = None -> employeesLoading snap = false ->
  employees (cur c) = None -> employeesLoading (cur c) = false ->
  gated_inv (spawn (loadAllTransactions snap) c).
Proof.
  intros H He El He' El'. destruct c as [s ts]. destruct H as [Ht Hem Hp Hen Hne]; simpl in *.
  assert (first_await (loadAllTransactions snap) <> None) as Hf
    by (unfold loadAllTransactions; by rewrite He, El).
  unfold loadAllTransactions in *. rewrite He, El in *. unfold spawn. simpl.
  constructor; simpl.
  - apply Forall_app. split; [done|]. constructor; [|done].
    exists KLoadAll, snap, ""%string. unfold kind_prog, loadAllTransactions. by rewrite He, El.
  - rewrite count_app, count_single. simpl. by rewrite Hem, El'.
  - rewrite count_app, count_single. simpl. rewrite Hp, Nat.add_0_r. done.
  - done.
  - intros _. rewrite count_app, count_single. simpl. destruct (Hne He') as [Hpn Hc].
    split; [done|]. rewrite Hc. done.
Qed.

Lemma spawn_upd f p (c : @Config State) : spawn (Upd f p) c = spawn p (Cfg (f (cur c)) (tasks c)).
Proof. by destruct c. Qed.

(** The invariant reads four fields of the state only. *)
Lemma inv_frame s s' ts :
  gated_inv (Cfg s ts) ->
  employees s' = employees s -> employeesLoading s' = employeesLoading s ->
  paginatedTransactions s' = paginatedTransactions s ->
  transactionsLoading s' = transactionsLoading s ->
  gated_inv (Cfg s' ts).
Proof.
  intros [Ht Hem Hp Hen Hne] He El Hpg Tl; simpl in *.
  constructor; simpl; rewrite ?He, ?El, ?Hpg, ?Tl; done.
Qed.

Lemma inv_start_byEmployee c i : gated_inv c -> gated_inv (spawn (loadTransactionsByEmployee i) c).
Proof.
  intros H. destruct c as [s ts]. unfold loadTransactionsByEmployee, spawn. simpl.
  destruct H as [Ht Hem Hp Hen Hne]; simpl in *. constructor; simpl.
  - apply Forall_app. split; [done|]. constructor; [|done].
    by exists KByEmployee, s, i.
  - by rewrite count_app, count_single, Nat.add_0_r.
  - by rewrite count_app, count_single, Nat.add_0_r.
  - rewrite count_app, count_single, Nat.add_0_r. done.
  - rewrite count_app, count_single, Nat.add_0_r. done.
Qed.

(** A click on the enabled button starts the only page fetch. *)
Lemma inv_start_loadMore c :
  gated_inv c -> viewMoreClickable (cur c) = true ->
  gated_inv (spawn (loadMoreTransactions (cur c)) c).
Proof.
  intros H Hc. destruct c as [s ts]. simpl in *.
  destruct (truthy (nextPageOf s)) eqn:Hn; [|rewrite loadMore_skip by done; by apply inv_done].
  unfold viewMoreClickable, viewMoreDisabled in Hc.
  destruct (transactionsLoading s) eqn:Tl; [by rewrite andb_false_r in Hc|].
  destruct (paginatedTransactions s) as [p|] eqn:Hp; [|by unfold nextPageOf in Hn; rewrite Hp in Hn].
  destruct H as [Ht Hem Hpc Hen Hne]; simpl in *.
  assert (employees s <> None) as He by (intros He; destruct (Hne He) as [Hp' _]; congruence).
  unfold loadMoreTransactions. rewrite Hn. unfold spawn. simpl.
  constructor; simpl.
  - apply Forall_app. split; [done|]. constructor; [|done].
    exists KLoadMore, s, ""%string. unfold kind_prog, loadMoreTransactions. by rewrite Hn.
  - by rewrite count_app, count_single, Nat.add_0_r.
  - rewrite count_app, count_single, Hpc. simpl. by rewrite Tl.
  - rewrite count_app, count_single, Nat.add_0_r. done.
  - done.
Qed.

Lemma inv_loadAll c snap :
  gated_inv c -> employees (cur c) = employees snap ->
  employeesLoading (cur c) = employeesLoading snap ->
  gated_inv (spawn (loadAllTransactions snap) c).
Proof.
  intros H He El.
  destruct (employees snap) eqn:Hs; [rewrite loadAll_skip by (left; by rewrite Hs); by apply inv_done|].
  destruct (employeesLoading snap) eqn:Ls; [rewrite loadAll_skip by (by right); by apply inv_done|].
  by apply inv_start_loadAll.
Qed.

Lemma inv_invoke ev c : gated_inv c -> gated_inv (spawn (handler ev (cur c)) c).
Proof.
  intros H. destruct ev as [|[e|]|]; simpl.
  - unfold loadEffect. case_match; [by apply inv_loadAll|by apply inv_done].
  - unfold handleEmployeeChange. case_match; [by apply inv_start_byEmployee|].
    rewrite spawn_upd. destruct c as [s ts]. apply inv_loadAll; [|done|done].
    by apply (inv_frame s).
  - by apply inv_done.
  - destruct (viewMoreClickable (cur c)) eqn:Hc; [by apply inv_start_loadMore|by apply inv_done].
Qed.

(** ** Settling a fetch *)

Section Settle.
Context (R : Remote).

Lemma spawn_finished p (c : @Config State) s' o :
  advance p (cur c) = (s', Finished o) -> spawn p c = Cfg s' (tasks c ++ []).
Proof. intros H. unfold spawn. by rewrite H. Qed.

(** A settled task that ends, after which only fields other than the
    four the invariant reads may have changed, except that a page task
    clears the page hook's [loading]. *)
Lemma inv_settle_end c i t s' o :
  gated_inv c -> tasks c !! i = Some t -> is_emp t = false ->
  advance (resume R t) (cur c) = (s', Finished o) ->
  employees s' = employees (cur c) -> employeesLoading s' = employeesLoading (cur c) ->
  (if is_page t then transactionsLoading s' = false
   else paginatedTransactions s' = paginatedTransactions (cur c) /\
        transactionsLoading s' = transactionsLoading (cur c)) ->
  gated_inv (spawn (resume R t) (Cfg (cur c) (delete i (tasks c)))).
Proof.
  intros [Ht Hem Hp Hen Hne] Hi Hemp Ha He El Hpg.
  rewrite (spawn_finished (resume R t) (Cfg (cur c) (delete i (tasks c))) s' o Ha), app_nil_r.
  simpl.
  pose proof (count_delete is_emp _ _ _ Hi) as Ce. pose proof (count_delete is_page _ _ _ Hi) as Cp.
  rewrite Hemp, Nat.add_0_r in Ce.
  destruct (is_page t) eqn:Ip; simpl in Cp.
  - assert (employees (cur c) <> None) as Hen' by (intros Hn; destruct (Hne Hn); lia).
    constructor; simpl.
    + by apply Forall_delete.
    + by rewrite El, <- Ce.
    + rewrite Hpg. destruct (transactionsLoading (cur c)); lia.
    + by rewrite He, <- Ce.
    + by rewrite He.
  - destruct Hpg as [Hpg Tl]. constructor; simpl.
    + by apply Forall_delete.
    + by rewrite El, <- Ce.
    + rewrite Tl, <- Hp. lia.
    + by rewrite He, <- Ce.
    + rewrite He, Hpg. intros Hn. destruct (Hne Hn). split; [done|lia].
Qed.

(** The initial load's employee fetch settles: on success its page fetch,
    the only one, starts; on failure nothing is left in flight. *)
Lemma inv_settle_loadAll c i t snap :
  gated_inv c -> tasks c !! i = Some t -> first_await (loadAllTransactions snap) = Some t ->
  gated_inv (spawn (resume R t) (Cfg (cur c) (delete i (tasks c)))).
Proof.
  intros H Hi Hfa. destruct c as [s ts]. simpl in *.
  unfold loadAllTransactions in Hfa. case_match; [|done]. simpl in Hfa. injection Hfa as <-.
  destruct H as [Ht Hem Hp Hen Hne]; simpl in *.
  pose proof (count_delete is_emp _ _ _ Hi) as Ce. pose proof (count_delete is_page _ _ _ Hi) as Cp.
  simpl in Ce, Cp. rewrite Nat.add_0_r in Cp.
  assert (employeesLoading s = true) as El by (destruct (employeesLoading s); lia).
  assert (employees s = None) as He by (apply Hen; lia).
  destruct (Hne He) as [Hpn Hc0].
  assert (transactionsLoading s = false) as Tl by (destruct (transactionsLoading s); lia).
  rewrite El in Hem.
  unfold resume. simpl. destruct (listEmployees R) as [es|e] eqn:Hes; unfold spawn; simpl.
  - constructor; simpl.
    + apply Forall_app. split; [by apply Forall_delete|]. constructor; [|done].
      by exists KLoadAllPage, snap, ""%string.
    + rewrite count_app, count_single. simpl. lia.
    + rewrite count_app, count_single. simpl. lia.
    + rewrite count_app, count_single. simpl. lia.
    + done.
  - rewrite app_nil_r. constructor; simpl.
    + by apply Forall_delete.
    + lia.
    + unfold transactionsLoading, set_employeesHook in *. simpl. rewrite Tl. lia.
    + lia.
    + unfold employees in He. rewrite He. intros _. split; [done|lia].
Qed.

(** A task whose program is known: case on the remote's answer, run the
    continuation to its end, and check the frame conditions. *)
Ltac settle_with H Hi Ht :=
  let Hf := fresh "Hf" in
  lazymatch type of Ht with _ = ?t =>
    destruct (respond R (req t)) eqn:Hf; subst t end;
  (eapply inv_settle_end; [exact H|exact Hi|reflexivity|unfold resume; rewrite Hf; reflexivity|..]);
  done.

Lemma inv_settle c i t :
  gated_inv c -> tasks c !! i = Some t ->
  gated_inv (spawn (resume R t) (Cfg (cur c) (delete i (tasks c)))).
Proof.
  intros H Hi.
  destruct (proj1 (Forall_lookup _ _) (inv_tasks _ H) _ _ Hi) as (k & snap & j & Hfa).
  destruct k; simpl in Hfa.
  - by apply (inv_settle_loadAll c i t snap).
  - injection Hfa as Ht. settle_with H Hi Ht.
  - unfold loadMoreTransactions in Hfa. case_match; [|done]. simpl in Hfa.
    injection Hfa as Ht.
    destruct (Page.data <$> paginatedTransactions snap) as [d|];
      [destruct (truthy d)|]; settle_with H Hi Ht.
  - injection Hfa as Ht. settle_with H Hi Ht.
Qed.
End Settle.

Lemma inv_initial : gated_inv (Cfg initialState []).
Proof. by constructor. Qed.

Lemma ui_reachable_inv R c : ui_reachable R c -> gated_inv c.
Proof.
  unfold ui_reachable. intros Hr. remember (Cfg initialState []) as c0 eqn:E.
  assert (gated_inv c0) as H0 by (subst; apply inv_initial). clear E.
  induction Hr as [c|c1 c2 c3 Hs _ IH]; [done|]. apply IH.
  destruct Hs as [ev c|i t c Hi]; [by apply inv_invoke|by apply inv_settle].
Qed.

(** ** Sessions are interleavings *)

Lemma exec_ui R es c c' : Forall ui_event es -> exec R es c = Some c' -> rtc (ui_step R) c c'.
Proof.
  intros Hes. revert c. induction Hes as [|e es He _ IH]; intros c; simpl; [intros [= ->]; apply rtc_refl|].
  destruct He as [[ev ->]|[i ->]]; simpl.
  - intros Hx. eapply rtc_l; [apply ui_invoke|by apply IH].
  - destruct (tasks c !! i) as [t|] eqn:Ht; simpl; [|done].
    intros Hx. eapply rtc_l; [by apply ui_settle|by apply IH].
Qed.

Lemma settles_ui R n c c' : exec R (repeat (Settle 0) n) c = Some c' -> rtc (ui_step R) c c'.
Proof. apply exec_ui. apply Forall_forall. intros e He%list_elem_of_In%repeat_spec. subst. right. by exists 0. Qed.

(** One event of a session: the handler started from an idle loop, then
    its fetches settled one by one as they are issued. *)
Lemma session_event_ui R ev s : rtc (ui_step R) (Cfg s []) (Cfg (session R [ev] s) []).
Proof.
  destruct (exec_run_alone R (handler ev s) s) as [n Hn].
  eapply rtc_l; [apply (ui_invoke R ev (Cfg s []))|]. by apply (settles_ui R n).
Qed.

(** C18. Driven through the UI, the component never has more than one
    page fetch (and never more than one employee fetch) in flight, in any
    interleaving of events and settlements: a page fetch is in flight
    exactly while the page hook is loading, and none before the employees
    are loaded.  So two "View More" fetches never read the same cursor
    (spec section 5). *)
Theorem ui_at_most_one_page_fetch R c :
  ui_reachable R c ->
  count is_page (tasks c) <= 1 /\ count is_emp (tasks c) <= 1 /\
  (count is_page (tasks c) = 1 <-> transactionsLoading (cur c) = true) /\
  (employees (cur c) = None -> count is_page (tasks c) = 0).
Proof.
  intros Hr. destruct (ui_reachable_inv R c Hr) as [_ Hem Hpc _ Hne].
  split_and!; [rewrite Hpc; destruct (transactionsLoading (cur c)); lia|rewrite Hem; destruct (employeesLoading (cur c)); lia| |].
  - rewrite Hpc. destruct (transactionsLoading (cur c)); split; congruence.
  - intros He. by destruct (Hne He).
Qed.

Lemma mount_page_in_flight_reachable : ui_reachable remote mount_page_in_flight.
Proof.
  eapply rtc_l; [apply (ui_invoke remote Rendered)|].
  eapply rtc_l; [apply (ui_settle remote 0); vm_compute; reflexivity|].
  apply rtc_refl.
Qed.

Lemma ui_at_most_one_page_fetch_witness :
  map req (tasks mount_page_in_flight) = [TransactionsPage None] /\
  (count is_page (tasks mount_page_in_flight) <= 1 /\
   count is_emp (tasks mount_page_in_flight) <= 1 /\
   (count is_page (tasks mount_page_in_flight) = 1 <->
    transactionsLoading (cur mount_page_in_flight) = true) /\
   (employees (cur mount_page_in_flight) = None ->
    count is_page (tasks mount_page_in_flight) = 0)).
Proof.
  split; [vm_compute; reflexivity|].
  apply ui_at_most_one_page_fetch with remote. apply mount_page_in_flight_reachable.
Defined.
