(* ===== verification/WellFormed.v ===== *)
(** * Well-formed states between events

    [app_wf] is the shape every state has once a handler has run to
    completion: no hook is loading (each hook's fetch clears [loading] on
    both paths), the employee filter is never the empty id (the sentinel
    [EMPTY_EMPLOYEE] clears the filter instead of setting it), and pages
    are accumulated only after a page has been received.  Every handler
    preserves it, whatever the remote answers, so it holds all along every
    session from the first render.  [isLoading] is not part of it: the
    component leaves it set after a rejection
    ([Errors.failed_click_disables_view_more]). *)

From stdpp Require Import base list options strings.
From S2P Require Import Prelude Types Remote Scenario Async Hooks App Handlers Sessions Gating.

Open Scope js_scope.

(** The filter is never the empty id. *)
Definition filter_ok (s : State) : Prop := forall i, employeeId s = Some i -> i <> ""%string.

Record app_wf (s : State) : Prop := {
  wf_employees_idle : employeesLoading s = false;
  wf_page_idle : transactionsLoading s = false;
  wf_byEmployee_idle : transactionsByEmployeeLoading s = false;
  wf_filter : forall i, employeeId s = Some i -> i <> ""%string;
  wf_accumulated : paginatedTransactions s = None -> allTransactions s = []
}.

Lemma wf_initial : app_wf initialState.
Proof. by constructor. Qed.

(** A state built field by field from a well-formed one. *)
Ltac wf_fields H :=
  destruct H as [? ? ? ? ?]; constructor;
  unfold employees, employeesLoading, paginatedTransactions, transactionsLoading,
    transactionsByEmployeeLoading in *;
  simpl in *; try done; try congruence; auto.

Section Preservation.
Context (R : Remote).

Lemma wf_loadAll snap s : app_wf s -> app_wf (run R (loadAllTransactions snap) s).1.
Proof.
  intros H.
  destruct (employees snap) eqn:He; [rewrite loadAll_skip by (left; by rewrite He); done|].
  destruct (employeesLoading snap) eqn:El; [rewrite loadAll_skip by (by right); done|].
  destruct (listEmployees R) as [es|e] eqn:Hes.
  - destruct (fetchTransactionsPage R (nextCursor (paginatedTransactions snap))) as [p|e] eqn:Hp.
    + rewrite (loadAll_ok R snap s es p) by done. wf_fields H.
    + rewrite (loadAll_page_error R snap s es e) by done. wf_fields H.
  - rewrite (loadAll_employees_error R snap s e) by done. wf_fields H.
Qed.

Lemma wf_loadByEmployee s i :
  app_wf s -> i <> ""%string -> app_wf (run R (loadTransactionsByEmployee i) s).1.
Proof.
  intros H Hi. destruct (fetchTransactionsForEmployee R i) as [l|e] eqn:Hl.
  - rewrite (loadByEmployee_ok R s i l) by done. wf_fields H.
  - rewrite (loadByEmployee_error R s i e) by done. wf_fields H.
Qed.

Lemma wf_loadMore s : app_wf s -> app_wf (run R (loadMoreTransactions s) s).1.
Proof.
  intros H. destruct (truthy (nextPageOf s)) eqn:Ht; [|by rewrite loadMore_skip].
  destruct (truthy_nextPage s Ht) as (p & n & Hp & Hn & Hn0).
  destruct (fetchTransactionsPage R (Some n)) as [p'|e] eqn:Hp'.
  - rewrite (loadMore_ok R s s p n p') by done. wf_fields H.
  - rewrite (loadMore_error R s s p n e) by done. wf_fields H.
Qed.

Lemma wf_handler ev s : app_wf s -> app_wf (run R (handler ev s) s).1.
Proof.
  intros H. destruct ev as [|[e|]|]; cbn [handler].
  - unfold loadEffect. case_match; [by apply wf_loadAll|done].
  - destruct (String.eqb (Employee.id e) "") eqn:Ee.
    + apply String.eqb_eq in Ee. rewrite change_clear by done. cbn [run].
      apply wf_loadAll. wf_fields H.
    + apply String.eqb_neq in Ee. rewrite change_select by done. by apply wf_loadByEmployee.
  - done.
  - case_match; [by apply wf_loadMore|done].
Qed.

Lemma wf_session evs s : app_wf s -> app_wf (session R evs s).
Proof. revert s. induction evs as [|ev evs IH]; intros s H; [done|]. apply IH, wf_handler, H. Qed.
End Preservation.

(** C20. Every session keeps the state well formed: from a well-formed
    state (the first render's is one), after any events and whatever the
    remote answers, no hook is loading, the filter is never the empty id,
    and pages are accumulated only once a page has been received; so the
    select's busy flag is exactly [isLoading], and the filter is active
    exactly when an employee id is stored. *)
Theorem sessions_well_formed R evs s :
  app_wf s ->
  let s' := session R evs s in
  app_wf s' /\ selectIsLoading s' = isLoading s' /\
  (truthy (employeeId s') = true <-> employeeId s' <> None).
Proof.
  intros H. cbv zeta. pose proof (wf_session R evs s H) as [El Tl Bl Hf Ha].
  split_and!; [by apply wf_session| |].
  - unfold selectIsLoading. rewrite Bl. apply orb_false_r.
  - destruct (employeeId (session R evs s)) as [i|] eqn:Hi; [|done].
    change (truthy i = true <-> Some i <> None). rewrite truthy_string_iff. specialize (Hf i eq_refl). naive_solver.
Qed.

Lemma sessions_well_formed_witness :
  let s' := session remote [Rendered; SelectChange (Some ann); ViewMoreClick] initialState in
  app_wf s' /\ selectIsLoading s' = isLoading s' /\
  (truthy (employeeId s') = true <-> employeeId s' <> None).
Proof. apply sessions_well_formed, wf_initial. Defined.

(** ** The filter in every interleaving *)

(** A handler's first segment sets the filter to a non-empty id, clears
    it, or leaves it. *)
Lemma handler_filter ev s i :
  employeeId (advance (handler ev s) s).1 = Some i -> i <> ""%string \/ employeeId s = Some i.
Proof.
  destruct ev as [|[e|]|]; cbn [handler];
    unfold handleEmployeeChange, loadEffect, loadAllTransactions, loadTransactionsByEmployee,
      loadMoreTransactions;
    repeat case_match; simpl; intros Hi; simplify_eq; auto.
  left. apply String.eqb_neq, negb_true_iff. done.
Qed.

(** No continuation of a task in flight touches the filter. *)
Lemma resume_keeps_filter R t s : task_of t -> employeeId (advance (resume R t) s).1 = employeeId s.
Proof. intros Ht. task_cases Ht; done. Qed.

Lemma ui_step_filter R c c' : ui_step R c c' -> gated_inv c -> filter_ok (cur c) -> filter_ok (cur c').
Proof.
  intros Hs H Hf i Hi. destruct Hs as [ev c|j t c Hj]; rewrite spawn_cur in Hi; simpl in Hi.
  - destruct (handler_filter ev (cur c) i Hi) as [?|He]; [done|by apply Hf].
  - rewrite resume_keeps_filter in Hi; [by apply Hf|].
    apply (Forall_lookup_1 _ _ _ _ (inv_tasks _ H) Hj).
Qed.

(** The filter is never the empty id in any configuration the UI
    reaches: [gated_inv] says which continuations are in flight. *)
Lemma ui_reachable_filter_ok R c : ui_reachable R c -> filter_ok (cur c).
Proof.
  unfold ui_reachable. remember (Cfg initialState []) as c0 eqn:E.
  assert (gated_inv c0 /\ filter_ok (cur c0)) as H0 by (subst; split; [apply inv_initial|done]).
  clear E. induction 1 as [c|c1 c2 c3 Hs _ IH]; [apply H0|]. apply IH. destruct H0 as [H Hf].
  split; [|by eapply ui_step_filter].
  destruct Hs as [ev c|j t c Hj]; [by apply inv_invoke|by apply inv_settle].
Qed.

(** C26. In every interleaving the UI can drive, not only between
    handlers, the filter is never the empty id: the sentinel entry clears
    it, no continuation of a fetch changes it.  So the filter is active
    ([if (employeeId)], line 21) exactly when an employee id is stored. *)
Theorem ui_filter_never_empty R c :
  ui_reachable R c ->
  filter_ok (cur c) /\ (truthy (employeeId (cur c)) = true <-> employeeId (cur c) <> None).
Proof.
  intros Hr. pose proof (ui_reachable_filter_ok R c Hr) as Hf.
  split; [done|]. destruct (employeeId (cur c)) as [i|] eqn:Hi; [|done].
  change (truthy i = true <-> Some i <> None). rewrite truthy_string_iff.
  specialize (Hf i Hi). naive_solver.
Qed.

Lemma ui_filter_never_empty_witness :
  filter_ok (cur mount_page_in_flight) /\
  (truthy (employeeId (cur mount_page_in_flight)) = true <-> employeeId (cur mount_page_in_flight) <> None).
Proof. apply (ui_filter_never_empty remote). apply mount_page_in_flight_reachable. Defined.
