(* ===== verification/Feed.v ===== *)
(** * The displayed feed in every interleaving (spec sections 4.1 and 5)

    Whatever order the UI events and the settlements come in, and whatever
    the remote answers (a page of its feed or a rejection), the unfiltered
    list the component displays, [allTransactions] followed by the latest
    page, is a prefix of the feed: pages [0..k] for some [k], in order,
    none twice, none skipped.  The invariant [feed_inv] adds to
    [Gating.gated_inv] the state's position on the feed ([feed_ok]) and,
    for every task in flight, the page its continuation will append
    ([feed_task]): a "View More" task's render displayed the page the
    hook still holds, because no other page fetch can run meanwhile
    ([Gating.ui_at_most_one_page_fetch]). *)

From stdpp Require Import base list options strings relations.
From S2P Require Import Prelude Types Remote Scenario Async Hooks App Handlers Sessions Gating.

Open Scope js_scope.

(** The remote's pages along the cursor chain are those of [ps], when it
    answers at all: the first page for [null], the next page for a page's
    cursor. *)
Definition feed_consistent (R : Remote) (ps : list Page) : Prop :=
  (forall p, fetchTransactionsPage R None = Resolved p -> ps !! 0 = Some p) /\
  (forall k p n p', ps !! k = Some p -> Page.nextPage p = Some n ->
     fetchTransactionsPage R (Some n) = Resolved p' -> ps !! S k = Some p').

(** The first [k] pages of the feed, concatenated. *)
Definition feed_prefix (ps : list Page) (k : nat) : list Transaction :=
  concat (map Page.data (take k ps)).

(** The state holds no page and nothing accumulated, or page [k] of the
    feed after the pages before it. *)
Definition feed_ok (ps : list Page) (s : State) : Prop :=
  (paginatedTransactions s = None /\ allTransactions s = []) \/
  exists k p, ps !! k = Some p /\ paginatedTransactions s = Some p /\
    allTransactions s = feed_prefix ps k.

(** What a task in flight will do to the feed: an initial load started
    with no page; its page fetch, while there is still no page; a "View
    More" whose render displayed the page the hook holds; an employee's
    fetch, which leaves the feed alone. *)
Definition feed_task (s : State) (t : @Pending State) : Prop :=
  (exists snap, first_await (loadAllTransactions snap) = Some t /\
     paginatedTransactions snap = None) \/
  (exists snap, first_await (kind_prog KLoadAllPage snap "") = Some t /\
     paginatedTransactions snap = None /\ paginatedTransactions s = None) \/
  (exists snap, first_await (loadMoreTransactions snap) = Some t /\
     paginatedTransactions snap = paginatedTransactions s) \/
  (exists i, first_await (loadTransactionsByEmployee i) = Some t).

Record feed_inv (ps : list Page) (c : @Config State) : Prop := {
  fi_gated : gated_inv c;
  fi_state : feed_ok ps (cur c);
  fi_tasks : Forall (feed_task (cur c)) (tasks c)
}.

(** ** The feed and its prefixes *)

Lemma serves_consistent R ps : serves R None ps -> feed_consistent R ps.
Proof.
  intros Hs. split.
  - inversion Hs as [c p Hp|c p n qs Hp]; subst; rewrite Hp; by intros ? [= <-].
  - remember None as c eqn:E. clear E. induction Hs as [c p Hp Hl|c p m qs Hp Hm Hm0 Hqs IH];
      intros [|k] p0 n p' Hk Hn Hf; simplify_eq/=.
    + destruct qs as [|q qs]; inversion Hqs; simplify_eq/=; congruence.
    + by apply (IH k p0 n p').
Qed.

Lemma feed_prefix_S ps k p : ps !! k = Some p -> feed_prefix ps (S k) = feed_prefix ps k ++ Page.data p.
Proof. intros Hk. unfold feed_prefix. by rewrite (take_S_r _ _ _ Hk), concat_map_snoc. Qed.

Lemma feed_prefix_NoDup ps k : NoDup (concat (map Page.data ps)) -> NoDup (feed_prefix ps k).
Proof.
  unfold feed_prefix. rewrite <- (take_drop k ps) at 1. rewrite map_app, concat_app.
  intros H. by apply NoDup_app in H as [? _].
Qed.

(** The unfiltered list of a state on the feed is a prefix of it. *)
Lemma feed_ok_displayed ps s :
  feed_ok ps s ->
  exists k, k <= length ps /\
    allTransactions s ++ js_or (Page.data <$> paginatedTransactions s) [] = feed_prefix ps k.
Proof.
  intros [[-> ->]|(k & p & Hk & -> & ->)]; [by exists 0; split; [lia|]|].
  exists (S k). split; [apply lookup_lt_Some in Hk; lia|]. by rewrite (feed_prefix_S _ _ p).
Qed.

(** ** Tasks *)

Lemma count_zero {A} (P : A -> bool) l : length (List.filter P l) = 0 -> Forall (fun t => P t = false) l.
Proof.
  induction l as [|x l IH]; simpl; [done|]. destruct (P x) eqn:Hx; simpl; [lia|].
  intros H. constructor; [done|by apply IH].
Qed.

(** Only the two page tasks read the hook's page: a task that waits for
    something else has the same meaning in every state. *)
Lemma feed_task_other s s' t : feed_task s t -> is_page t = false -> feed_task s' t.
Proof.
  intros [H|[(snap & Hf & _)|[(snap & Hf & _)|H]]] Hp; [by left| | |by do 3 right].
  - simpl in Hf. injection Hf as <-. done.
  - unfold loadMoreTransactions in Hf. case_match; [|done]. injection Hf as <-. done.
Qed.

Lemma feed_task_frame s s' t :
  paginatedTransactions s' = paginatedTransactions s -> feed_task s t -> feed_task s' t.
Proof. intros E. unfold feed_task. by rewrite E. Qed.

(** A program that keeps the page and the accumulated list, and whose
    first fetch (if any) is a task of the feed. *)
Lemma feed_spawn ps s ts p :
  feed_ok ps s -> Forall (feed_task s) ts ->
  paginatedTransactions (advance p s).1 = paginatedTransactions s ->
  allTransactions (advance p s).1 = allTransactions s ->
  (forall t, first_await p = Some t -> feed_task s t) ->
  feed_ok ps (cur (spawn p (Cfg s ts))) /\ Forall (feed_task (cur (spawn p (Cfg s ts)))) (tasks (spawn p (Cfg s ts))).
Proof.
  intros Hok Hts Ep Ea Hnew. rewrite spawn_tasks.
  assert (cur (spawn p (Cfg s ts)) = (advance p s).1) as -> by (unfold spawn; simpl; by destruct (advance p s)).
  split; [unfold feed_ok; by rewrite Ep, Ea|]. simpl.
  apply Forall_app. split; [by eapply Forall_impl; [exact Hts|intros t; apply feed_task_frame]|].
  destruct (first_await p) as [t|]; [|done]. constructor; [|done].
  apply (feed_task_frame s); [done|by apply Hnew].
Qed.

(** ** Starting a handler *)

(** No handler touches the page or the accumulated list before its first
    fetch. *)
Lemma handler_keeps_feed ev snap s :
  paginatedTransactions (advance (handler ev snap) s).1 = paginatedTransactions s /\
  allTransactions (advance (handler ev snap) s).1 = allTransactions s.
Proof.
  destruct ev as [|[e|]|]; cbn [handler];
    unfold loadEffect, handleEmployeeChange, loadAllTransactions, loadTransactionsByEmployee,
      loadMoreTransactions;
    repeat case_match; simpl; done.
Qed.

Lemma loadAll_task s ts t :
  gated_inv (Cfg s ts) -> first_await (loadAllTransactions s) = Some t -> feed_task s t.
Proof.
  intros H Ht. destruct (employees s) as [es|] eqn:He.
  { rewrite loadAll_skip in Ht by (left; by rewrite He). done. }
  left. exists s. split; [done|]. by destruct (inv_no_employees _ H He).
Qed.

Lemma handler_task ev s ts t :
  gated_inv (Cfg s ts) -> first_await (handler ev s) = Some t -> feed_task s t.
Proof.
  intros H. destruct ev as [|[e|]|]; cbn [handler].
  - unfold loadEffect. case_match; [by apply (loadAll_task s ts)|done].
  - destruct (String.eqb (Employee.id e) "") eqn:Ee.
    + apply String.eqb_eq in Ee. rewrite change_clear by done. by apply (loadAll_task s ts).
    + apply String.eqb_neq in Ee. rewrite change_select by done. intros Ht. do 3 right. by exists (Employee.id e).
  - done.
  - case_match; [|done]. intros Ht. do 2 right. left. by exists s.
Qed.

Lemma feed_invoke ps ev c : feed_inv ps c -> feed_inv ps (spawn (handler ev (cur c)) c).
Proof.
  intros [H Hok Hts]. destruct c as [s ts]. simpl in *.
  destruct (handler_keeps_feed ev s s) as [Ep Ea].
  destruct (feed_spawn ps s ts (handler ev s)) as [Hok' Hts']; [done..|intros t; by apply (handler_task ev s ts t)|].
  constructor; [by apply (inv_invoke ev (Cfg s ts))|done|done].
Qed.

(** ** Settling a fetch *)

Section Settle.
Context (R : Remote) (ps : list Page).

(** A settled task that keeps the page and the accumulated list. *)
Lemma feed_settle_frame c i t :
  feed_inv ps c -> tasks c !! i = Some t ->
  paginatedTransactions (advance (resume R t) (cur c)).1 = paginatedTransactions (cur c) ->
  allTransactions (advance (resume R t) (cur c)).1 = allTransactions (cur c) ->
  (forall t', first_await (resume R t) = Some t' -> feed_task (cur c) t') ->
  feed_inv ps (spawn (resume R t) (Cfg (cur c) (delete i (tasks c)))).
Proof.
  intros [H Hok Hts] Hi Ep Ea Hnew.
  destruct (feed_spawn ps (cur c) (delete i (tasks c)) (resume R t)) as [Hok' Hts'];
    [done|by apply Forall_delete|done..|].
  constructor; [by apply inv_settle|done|done].
Qed.

(** A settled page task that ends: the other tasks in flight wait for
    something else than a page, so the new page means nothing to them. *)
Lemma feed_settle_page c i t s' o :
  feed_inv ps c -> tasks c !! i = Some t -> is_page t = true ->
  advance (resume R t) (cur c) = (s', Finished o) -> feed_ok ps s' ->
  feed_inv ps (spawn (resume R t) (Cfg (cur c) (delete i (tasks c)))).
Proof.
  intros [H Hok Hts] Hi Hp Ha Hok'. constructor; [by apply inv_settle| |].
  - by rewrite (spawn_finished (resume R t) (Cfg (cur c) (delete i (tasks c))) s' o Ha).
  - rewrite (spawn_finished (resume R t) (Cfg (cur c) (delete i (tasks c))) s' o Ha), app_nil_r. simpl.
    pose proof (count_delete is_page _ _ _ Hi) as Cp. rewrite Hp in Cp.
    pose proof (inv_page _ H) as Hpc.
    assert (count is_page (delete i (tasks c)) = 0) as C0 by (destruct (transactionsLoading (cur c)); lia).
    pose proof (count_zero is_page _ C0) as Hnp.
    pose proof (Forall_delete _ _ i Hts) as Hts'.
    apply Forall_forall. intros t' Ht'.
    apply (feed_task_other (cur c)); [by eapply Forall_forall|by eapply Forall_forall in Hnp].
Qed.

(** While an employee task is in flight there is no page. *)
Lemma emp_task_no_page c i t :
  gated_inv c -> tasks c !! i = Some t -> is_emp t = true -> paginatedTransactions (cur c) = None.
Proof.
  intros H Hi He. pose proof (count_delete is_emp _ _ _ Hi) as Ce. rewrite He in Ce.
  destruct (inv_no_employees _ H) as [Hp _]; [apply (inv_emp_none _ H); lia|done].
Qed.

Lemma feed_settle c i t :
  feed_consistent R ps -> feed_inv ps c -> tasks c !! i = Some t ->
  feed_inv ps (spawn (resume R t) (Cfg (cur c) (delete i (tasks c)))).
Proof.
  intros [Hc0 HcS] Hf Hi. pose proof (Forall_lookup_1 _ _ _ _ (fi_tasks _ _ Hf) Hi) as Ht.
  destruct Ht as [(snap & Ht & Hs)|[(snap & Ht & Hs & Hp0)|[(snap & Ht & Hs)|(j & Ht)]]].
  - unfold loadAllTransactions in Ht. case_match; [|done]. injection Ht as <-.
    apply feed_settle_frame; [done|done|unfold resume; simpl; by destruct_fetched..|].
    unfold resume. simpl. destruct_fetched; simpl; [|done].
    intros t' [= <-]. right; left. exists snap. split_and!; [done|done|].
    by eapply emp_task_no_page; [apply Hf|exact Hi|].
  - simpl in Ht. injection Ht as <-. rewrite <- Hs in Hp0.
    destruct (fi_state _ _ Hf) as [[_ Ha]|(k & p & _ & Hp & _)]; [|congruence].
    unfold paginatedTransactions in Hs.
    destruct (fetchTransactionsPage R (nextCursor (Hook.data (paginatedHook snap)))) as [v|e] eqn:Hv.
    + eapply feed_settle_page; [done|done|done|unfold resume; simpl; rewrite Hv; reflexivity|].
      rewrite Hs in Hv. right. exists 0, v. split_and!; [by apply Hc0|done|done].
    + apply feed_settle_frame; [done|done|unfold resume; simpl; by rewrite Hv..].
  - unfold loadMoreTransactions in Ht. destruct (truthy (nextPageOf snap)) eqn:Hn; [|done].
    injection Ht as <-. destruct (truthy_nextPage snap Hn) as (p & n & Hp & Hnp & _).
    destruct (fi_state _ _ Hf) as [[Hp' _]|(k & p0 & Hk & Hp' & Ha)]; [congruence|].
    assert (p0 = p) as -> by congruence.
    unfold paginatedTransactions in Hp.
    destruct (fetchTransactionsPage R (Some n)) as [p'|e] eqn:Hv.
    + eapply feed_settle_page; [done|done|done|unfold resume, paginatedTransactions; simpl; rewrite Hp; simpl; rewrite Hnp, Hv; reflexivity|].
      right. exists (S k), p'. simpl.
      split_and!; [by apply (HcS k p n p')|done|]. rewrite (feed_prefix_S _ _ p Hk).
      unfold allTransactions in Ha. by rewrite <- Ha.
    + apply feed_settle_frame; [done|done|unfold resume, paginatedTransactions; simpl; rewrite Hp; simpl; by rewrite Hnp, Hv..].
  - injection Ht as <-.
    apply feed_settle_frame; [done|done|unfold resume; simpl; by destruct_fetched..].
Qed.
End Settle.

Lemma feed_inv_initial ps : feed_inv ps (Cfg initialState []).
Proof. constructor; [apply inv_initial|by left|done]. Qed.

Lemma ui_reachable_feed R ps c : feed_consistent R ps -> ui_reachable R c -> feed_inv ps c.
Proof.
  intros Hc Hr. unfold ui_reachable in Hr. remember (Cfg initialState []) as c0 eqn:E.
  assert (feed_inv ps c0) as H0 by (subst; apply feed_inv_initial). clear E.
  induction Hr as [c|c1 c2 c3 Hs _ IH]; [done|]. apply IH.
  destruct Hs as [ev c|i t c Hi]; [by apply feed_invoke|by apply feed_settle].
Qed.

(** C21. In every interleaving the UI can drive, whatever the remote
    answers along its feed [ps] (the page for each cursor, or a
    rejection), the unfiltered list, [allTransactions] then the latest
    page, is the first [k] pages of the feed for some [k]: in order, no
    page twice and none skipped; it is what the list shows when no
    filter is set, and it has no duplicate when the feed has none (spec
    section 5 and section 8, first property). *)
Theorem ui_feed_prefix R ps c :
  feed_consistent R ps -> ui_reachable R c ->
  exists k, k <= length ps /\
    allTransactions (cur c) ++ js_or (Page.data <$> paginatedTransactions (cur c)) [] =
      feed_prefix ps k /\
    (employeeId (cur c) = None -> transactions (cur c) = Some (feed_prefix ps k)) /\
    (NoDup (concat (map Page.data ps)) -> NoDup (feed_prefix ps k)).
Proof.
  intros Hc Hr. destruct (feed_ok_displayed ps (cur c)) as (k & Hk & Hd).
  { apply (fi_state _ _ (ui_reachable_feed R ps c Hc Hr)). }
  exists k. split_and!; [done|done| |apply feed_prefix_NoDup].
  intros Hf. unfold transactions. by rewrite Hf, <- Hd.
Qed.

Lemma ui_feed_prefix_witness :
  exists k, k <= length pages /\
    allTransactions (cur mount_page_in_flight) ++
      js_or (Page.data <$> paginatedTransactions (cur mount_page_in_flight)) [] =
      feed_prefix pages k /\
    (employeeId (cur mount_page_in_flight) = None ->
       transactions (cur mount_page_in_flight) = Some (feed_prefix pages k)) /\
    (NoDup (concat (map Page.data pages)) -> NoDup (feed_prefix pages k)).
Proof.
  apply (ui_feed_prefix remote); [|apply mount_page_in_flight_reachable].
  apply serves_consistent. eapply serves_more; [reflexivity|reflexivity|lia|].
  apply serves_last; reflexivity.
Defined.
