(* ===== verification/Busy.v ===== *)
(** * The busy flag against the fetches in flight (spec section 3)

    The spec's [isBusy] is "whether any fetch is in flight" ([spec_busy]
    of a configuration of the event loop).  The component's [isLoading]
    is set and cleared by each handler around its own awaits, so two
    handlers whose fetches overlap share it: the first to finish clears
    it while the other's fetch is still in flight.  An employee selection
    made while a "View More" fetch is pending does so; the select then
    shows no loading state although a page is still on its way.  The
    "View More" button stays disabled only because its test also reads
    the page hook's own [loading] ([Gating.ui_at_most_one_page_fetch]). *)

From stdpp Require Import base list options strings relations.
From S2P Require Import Prelude Types Remote Scenario Async Hooks App Handlers Sessions EventLoop Gating.

Open Scope js_scope.

(** The spec's [isBusy], on a configuration of the event loop. *)
Definition spec_busy (c : @Config State) : bool := bool_decide (tasks c <> []).

(** The mount, both fetches settled; a click on "View More"; a selection
    of employee [e] before the page arrives; [e]'s transactions settle. *)
Definition select_during_click (e : Employee) : list (@Event State) :=
  [Invoke (handler Rendered); Settle 0; Settle 0;
   Invoke (handler ViewMoreClick); Invoke (handler (SelectChange (Some e))); Settle 1].

Lemma select_during_click_ui e : Forall ui_event (select_during_click e).
Proof.
  unfold select_during_click. rewrite !Forall_cons. split_and!; try apply Forall_nil_2;
    first [left; by eexists|right; by eexists].
Qed.

(** C22. [isLoading] is not the spec's [isBusy]: through the UI alone, a
    selection made while a "View More" page is being fetched clears it
    when the employee's transactions arrive, so the page fetch is still
    in flight while neither [isLoading] nor the select's loading flag is
    set.  Like [Sessions.handler], this assumes the select accepts a
    change while it shows its loading state; whether InputSelect does is
    not given by [src/]. *)
Theorem busy_cleared_in_flight R es p n e l :
  listEmployees R = Resolved es -> fetchTransactionsPage R None = Resolved p ->
  Page.nextPage p = Some n -> n <> 0%N -> Employee.id e <> ""%string ->
  fetchTransactionsForEmployee R (Employee.id e) = Resolved l ->
  exists c, exec R (select_during_click e) (Cfg initialState []) = Some c /\
    ui_reachable R c /\ map req (tasks c) = [TransactionsPage (Some n)] /\
    spec_busy c = true /\ isLoading (cur c) = false /\ selectIsLoading (cur c) = false.
Proof.
  intros Hes Hp Hn Hn0 He Hl.
  assert (truthy (Some n) = true) as Ht by (apply truthy_N_iff, Hn0).
  rewrite <- String.eqb_neq in He.
  destruct (exec R (select_during_click e) (Cfg initialState [])) as [c|] eqn:Hx.
  2: { revert Hx. unfold select_during_click, handler, viewMoreClickable, shouldShowViewMore,
         viewMoreDisabled, js_not, not_null. loop_solve. by intros [=]. }
  exists c. split_and!; [done|exact (exec_ui R _ _ _ (select_during_click_ui e) Hx)|..];
    revert Hx; unfold select_during_click, handler, viewMoreClickable, shouldShowViewMore,
      viewMoreDisabled, js_not, not_null; loop_solve; intros [= <-]; simpl; by rewrite ?Hn.
Qed.

Lemma busy_cleared_in_flight_witness :
  exists c, exec remote (select_during_click ann) (Cfg initialState []) = Some c /\
    ui_reachable remote c /\ map req (tasks c) = [TransactionsPage (Some 1%N)] /\
    spec_busy c = true /\ isLoading (cur c) = false /\ selectIsLoading (cur c) = false.
Proof.
  apply (busy_cleared_in_flight remote [ann] (Page.mk [t1; t2] (Some 1%N)) 1%N ann [t4]);
    [reflexivity|reflexivity|reflexivity|lia|vm_compute; discriminate|reflexivity].
Defined.
