(* ===== verification/React.v ===== *)
(** * React's render and effect scheduling (lines 48-52)

    The effect at lines 48-52 does not run on demand: React runs it after
    a render whose dependency list (line 52) differs from the previous
    render's.  Every settled fetch and every user event commits its
    synchronous updates as one batch, after which the component renders;
    the effect then runs with that render's values, which may start a
    handler and commit again, and so on until a render leaves the
    dependencies as they were ([rerender]).  [react_step] is the event
    loop driven this way: a user event (the select or the button) or a
    fetch settling, each followed by the renders and effects it causes;
    [react_auto] is the part that happens without the user.

    The dependency list is [employees], [employeesLoading],
    [transactionsLoading] and [loadAllTransactions].  The identity of the
    [loadAllTransactions] callback changes with [employees] and
    [employeesLoading] and with the hooks' fetchers, whose identities are
    not given by [src/]; [effect_deps] compares the three values, by value
    where React compares by reference (the employee list is fetched once
    and only replaces [null], so the two agree here).

    Results: every React-scheduled run is a UI-driven interleaving
    ([react_reachable_ui]), so the invariants proved in [Gating] hold of
    it; a rejected first page stops the mount for good; with a remote
    that answers, the mount loads the employees and the first page and
    stops; with a remote that rejects the employee list, the effect
    re-runs after every failure and the automatic steps never stop
    (spec section 7: "No action is retried automatically"). *)

From stdpp Require Import base list options strings relations.
From S2P Require Import Prelude Types Remote Scenario Async Hooks App Handlers Sessions Gating.

Open Scope js_scope.

(** Line 52: the values the effect depends on. *)
Definition Deps : Type := (option (list Employee) * bool * bool)%type.

Definition effect_deps (s : State) : Deps :=
  (employees s, employeesLoading s, transactionsLoading s).

(** The renders after a commit: while the dependencies differ from the
    last render's, the effect runs on the new render's values.  Two
    rounds are enough ([rerender_stable]): the effect either does nothing
    or starts the initial load, which marks the employees as loading, and
    then does nothing. *)
Fixpoint rerender (fuel : nat) (c : @Config State) (d : option Deps) : @Config State * option Deps :=
  match fuel with
  | 0 => (c, d)
  | S f =>
      if bool_decide (d = Some (effect_deps (cur c))) then (c, d)
      else rerender f (spawn (loadEffect (cur c)) c) (Some (effect_deps (cur c)))
  end.

(** The event loop and the dependencies of the last render. *)
Record RConfig := RCfg { loop : @Config State; rendered : option Deps }.

Definition commit (c : @Config State) (d : option Deps) : RConfig :=
  let '(c', d') := rerender 2 c d in RCfg c' d'.

(** The mount: the first render has no previous one, so the effect runs. *)
Definition react_init : RConfig := commit (Cfg initialState []) None.

(** What the user does: the select and the button. *)
Inductive user_event : UiEvent -> Prop :=
| user_select v : user_event (SelectChange v)
| user_click : user_event ViewMoreClick.

Inductive react_step (R : Remote) : RConfig -> RConfig -> Prop :=
| react_user ev rc :
    user_event ev ->
    react_step R rc (commit (spawn (handler ev (cur (loop rc))) (loop rc)) (rendered rc))
| react_settle i t rc :
    tasks (loop rc) !! i = Some t ->
    react_step R rc
      (commit (spawn (resume R t) (Cfg (cur (loop rc)) (delete i (tasks (loop rc))))) (rendered rc)).

(** Without the user: fetches settle, React renders and runs the effect. *)
Inductive react_auto (R : Remote) : RConfig -> RConfig -> Prop :=
| auto_settle i t rc :
    tasks (loop rc) !! i = Some t ->
    react_auto R rc
      (commit (spawn (resume R t) (Cfg (cur (loop rc)) (delete i (tasks (loop rc))))) (rendered rc)).

Definition react_reachable (R : Remote) (rc : RConfig) : Prop := rtc (react_step R) react_init rc.

(** Settle the oldest fetch and render: one automatic step, computed. *)
Definition settle_oldest (R : Remote) (rc : RConfig) : option RConfig :=
  t ← tasks (loop rc) !! 0;
  Some (commit (spawn (resume R t) (Cfg (cur (loop rc)) (delete 0 (tasks (loop rc))))) (rendered rc)).

(** ** Renders *)

(** The effect either does nothing or leaves the employees loading. *)
Lemma loadEffect_cases (c : @Config State) :
  loadEffect (cur c) = Done \/ employeesLoading (cur (spawn (loadEffect (cur c)) c)) = true.
Proof.
  destruct c as [s ts]. simpl. unfold loadEffect.
  destruct (employeesLoading s) eqn:El; [by left|].
  destruct (employees s) eqn:He; [by left|].
  destruct (transactionsLoading s); [by left|]. right.
  unfold loadAllTransactions. rewrite He, El. done.
Qed.

Lemma spawn_Done_cur (c : @Config State) : cur (spawn Done c) = cur c.
Proof. by destruct c. Qed.

(** After a commit's renders the dependencies are those of the last render. *)
Lemma rerender_stable c d : (rerender 2 c d).2 = Some (effect_deps (cur (rerender 2 c d).1)).
Proof.
  simpl. case_bool_decide as E1; [done|].
  case_bool_decide as E2; [done|]. simpl.
  destruct (loadEffect_cases c) as [Hd|Hl].
  - exfalso. apply E2. by rewrite Hd, spawn_Done_cur.
  - assert (loadEffect (cur (spawn (loadEffect (cur c)) c)) = Done) as ->
      by (unfold loadEffect at 1; by rewrite Hl).
    by rewrite spawn_Done_cur.
Qed.

(** Every effect run is the effect handler started on the event loop. *)
Lemma rerender_ui R n c d : rtc (ui_step R) c (rerender n c d).1.
Proof.
  revert c d. induction n as [|n IH]; intros c d; simpl; [apply rtc_refl|].
  case_bool_decide; [apply rtc_refl|].
  eapply rtc_l; [apply (ui_invoke R Rendered)|apply IH].
Qed.

Lemma commit_ui R c d : rtc (ui_step R) c (loop (commit c d)).
Proof.
  unfold commit. pose proof (rerender_ui R 2 c d) as H.
  destruct (rerender 2 c d) as [c' d']. exact H.
Qed.

Lemma react_step_ui R rc rc' : react_step R rc rc' -> rtc (ui_step R) (loop rc) (loop rc').
Proof.
  destruct 1 as [ev rc Hev|i t rc Hi].
  - eapply rtc_l; [apply (ui_invoke R ev)|apply commit_ui].
  - eapply rtc_l; [by apply ui_settle|apply commit_ui].
Qed.

(** Every run under React's scheduling is a UI-driven interleaving, so
    the invariants of [Gating], [Feed] and [WellFormed] hold of it. *)
Lemma react_reachable_ui R rc : react_reachable R rc -> ui_reachable R (loop rc).
Proof.
  assert (forall rc0 rc', rtc (react_step R) rc0 rc' -> rtc (ui_step R) (loop rc0) (loop rc')) as Hg.
  { induction 1 as [|rc1 rc2 rc3 Hs _ IH]; [apply rtc_refl|].
    eapply rtc_trans; [by apply react_step_ui|exact IH]. }
  intros Hr. eapply rtc_trans; [apply commit_ui|by apply Hg].
Qed.

Lemma settle_oldest_auto R rc rc' : settle_oldest R rc = Some rc' -> react_auto R rc rc'.
Proof.
  unfold settle_oldest. destruct (tasks (loop rc) !! 0) as [t|] eqn:Ht; simpl; [|done].
  intros [= <-]. by apply auto_settle.
Qed.

(** A configuration that steps to itself is not strongly normalising. *)
Lemma self_loop_not_sn {A} (r : relation A) x : r x x -> ~ sn r x.
Proof. intros Hr Hsn. induction Hsn as [x _ IH]. by apply (IH x). Qed.

(** ** Quiet renders and automatic steps *)

(** A render after which the effect does nothing settles the dependencies
    at once. *)
Lemma commit_quiet c d :
  loadEffect (cur c) = Done ->
  cur (loop (commit c d)) = cur c /\ tasks (loop (commit c d)) = tasks c /\
  rendered (commit c d) = Some (effect_deps (cur c)).
Proof.
  intros Hd. unfold commit. simpl. case_bool_decide as E; simpl; [by subst d|].
  rewrite Hd, spawn_done. simpl. rewrite app_nil_r. case_bool_decide; simpl; [done|by exfalso].
Qed.

(** The mount: the effect has started the initial load, which waits for
    the employees. *)
Lemma react_init_shape :
  exists t0, tasks (loop react_init) = [t0] /\
    first_await (loadAllTransactions initialState) = Some t0 /\
    cur (loop react_init) = (advance (loadAllTransactions initialState) initialState).1.
Proof. eexists. split_and!; vm_compute; reflexivity. Qed.

(** Settling the oldest fetch when the render after it runs no effect. *)
Lemma settle_oldest_quiet R rc t ts :
  tasks (loop rc) = t :: ts ->
  loadEffect (advance (resume R t) (cur (loop rc))).1 = Done ->
  exists rc', react_auto R rc rc' /\
    cur (loop rc') = (advance (resume R t) (cur (loop rc))).1 /\
    tasks (loop rc') = ts ++ match first_await (resume R t) with Some t' => [t'] | None => [] end /\
    rendered rc' = Some (effect_deps (cur (loop rc'))).
Proof.
  intros Ht Hd. set (c := spawn (resume R t) (Cfg (cur (loop rc)) (delete 0 (tasks (loop rc))))).
  exists (commit c (rendered rc)).
  assert (cur c = (advance (resume R t) (cur (loop rc))).1) as Hc by (subst c; by rewrite spawn_cur).
  destruct (commit_quiet c (rendered rc)) as (C & T & D); [by rewrite Hc|].
  split_and!.
  - apply (auto_settle R 0 t). by rewrite Ht.
  - by rewrite C.
  - rewrite T. subst c. rewrite spawn_tasks. simpl. by rewrite Ht.
  - by rewrite D, C.
Qed.

(** With one fetch in flight, the automatic step is settling it. *)
Lemma react_auto_single R rc t rc' :
  tasks (loop rc) = [t] -> react_auto R rc rc' -> settle_oldest R rc = Some rc'.
Proof.
  intros Ht H. inversion H as [i t' rc0 Hi E1 E2]; subst. rewrite Ht in Hi.
  destruct i as [|i]; [|by rewrite lookup_cons_ne_0 in Hi]. injection Hi as <-.
  unfold settle_oldest. by rewrite Ht.
Qed.

Lemma no_tasks_nf R rc : tasks (loop rc) = [] -> nf (react_auto R) rc.
Proof. intros Ht [rc' H]. inversion H as [i t rc0 Hi E1 E2]; subst. by rewrite Ht in Hi. Qed.

(** The mount with an employee list that rejects comes back to itself. *)
Lemma failed_mount_cycle R e : listEmployees R = Rejected e -> settle_oldest R react_init = Some react_init.
Proof. intros He. destruct R as [le fp fe]. simpl in He. subst le. vm_compute. reflexivity. Qed.

(** C24. When the remote rejects the employee list, the component retries
    it for ever without any user action: the mount's effect issues the
    fetch; its rejection clears [employeesLoading], a dependency of the
    effect, so React runs the effect again, whose guard holds again, and
    the configuration is the mount's again.  The automatic steps are not
    strongly normalising, and every configuration they reach is that one:
    a fetch of the employees in flight, [isLoading] set and the select
    showing "Loading employees...".  Spec section 7: "No action is retried
    automatically". *)
Theorem failed_mount_retries_forever R e :
  listEmployees R = Rejected e ->
  react_auto R react_init react_init /\ ~ sn (react_auto R) react_init /\
  forall rc, rtc (react_auto R) react_init rc ->
    rc = react_init /\ map req (tasks (loop rc)) = [ListEmployees] /\
    isLoading (cur (loop rc)) = true /\ loadingLabel (cur (loop rc)) = "Loading employees..."%string.
Proof.
  intros He. pose proof (settle_oldest_auto R _ _ (failed_mount_cycle R e He)) as Hc.
  split_and!; [done|by apply self_loop_not_sn|].
  intros rc Hr. assert (rc = react_init) as ->; [|split_and!; [done|vm_compute; reflexivity..]].
  remember react_init as r0 eqn:E. induction Hr as [|rc1 rc2 rc3 Hs _ IH]; [done|]. subst rc1.
  destruct react_init_shape as (t0 & Ht0 & _).
  pose proof (react_auto_single R _ _ _ Ht0 Hs) as Hx. rewrite (failed_mount_cycle R e He) in Hx.
  injection Hx as <-. by apply IH.
Qed.

(** C25. With a remote that answers, the mount needs no user action and
    stops: the two fetches the effect issues settle, after each the
    render's effect does nothing, and the component ends with nothing in
    flight and no automatic step left, showing the first page, offering
    the sentinel then the employees, and not busy (spec section 4.1,
    [initialLoad]). *)
Theorem mount_loads_and_stops R es p :
  listEmployees R = Resolved es -> fetchTransactionsPage R None = Resolved p ->
  exists rc, rtc (react_auto R) react_init rc /\ nf (react_auto R) rc /\
    transactions (cur (loop rc)) = Some (Page.data p) /\
    selectItems (cur (loop rc)) = EMPTY_EMPLOYEE :: es /\ isLoading (cur (loop rc)) = false /\
    rendered rc = Some (effect_deps (cur (loop rc))).
Proof.
  intros Hes Hp. destruct react_init_shape as (t0 & Ht0 & Hf0 & Hs0).
  unfold loadAllTransactions in Hf0. simpl in Hf0. injection Hf0 as <-.
  destruct (settle_oldest_quiet R react_init _ [] Ht0) as (rc1 & A1 & C1 & T1 & _).
  { rewrite Hs0. unfold resume. simpl. rewrite Hes. reflexivity. }
  rewrite Hs0 in C1. unfold resume in C1, T1. simpl in C1, T1. rewrite Hes in C1, T1. simpl in C1, T1.
  destruct (settle_oldest_quiet R rc1 _ [] T1) as (rc2 & A2 & C2 & T2 & D2).
  { rewrite C1. unfold resume. simpl. rewrite Hp. reflexivity. }
  rewrite C1 in C2. unfold resume in C2, T2. simpl in C2, T2. rewrite Hp in C2, T2. simpl in C2, T2.
  exists rc2. split_and!; [by eapply rtc_l; [|eapply rtc_l; [|apply rtc_refl]]|by apply no_tasks_nf|..|done];
    rewrite C2; reflexivity.
Qed.

(** C29. When the employees arrive but the first page is rejected, the
    mount stops without retrying, unlike a rejected employee list (C24):
    the employees are now cached, so the re-rendered effect's guard
    fails.  The component ends with nothing in flight and no automatic
    step left, an empty list, no "View More" button, the employees
    offered, and [isLoading] set for good, so the select shows its
    loading state. *)
Theorem failed_first_page_stops R es e :
  listEmployees R = Resolved es -> fetchTransactionsPage R None = Rejected e ->
  exists rc, rtc (react_auto R) react_init rc /\ nf (react_auto R) rc /\
    tasks (loop rc) = [] /\ transactions (cur (loop rc)) = Some [] /\
    shouldShowViewMore (cur (loop rc)) = false /\ selectItems (cur (loop rc)) = EMPTY_EMPLOYEE :: es /\
    isLoading (cur (loop rc)) = true /\ selectIsLoading (cur (loop rc)) = true.
Proof.
  intros Hes Hp. destruct react_init_shape as (t0 & Ht0 & Hf0 & Hs0).
  unfold loadAllTransactions in Hf0. simpl in Hf0. injection Hf0 as <-.
  destruct (settle_oldest_quiet R react_init _ [] Ht0) as (rc1 & A1 & C1 & T1 & _).
  { rewrite Hs0. unfold resume. simpl. rewrite Hes. reflexivity. }
  rewrite Hs0 in C1. unfold resume in C1, T1. simpl in C1, T1. rewrite Hes in C1, T1. simpl in C1, T1.
  destruct (settle_oldest_quiet R rc1 _ [] T1) as (rc2 & A2 & C2 & T2 & _).
  { rewrite C1. unfold resume. simpl. rewrite Hp. reflexivity. }
  rewrite C1 in C2. unfold resume in C2, T2. simpl in C2, T2. rewrite Hp in C2, T2. simpl in C2, T2.
  exists rc2. split_and!; [by eapply rtc_l; [|eapply rtc_l; [|apply rtc_refl]]|by apply no_tasks_nf|done|..];
    rewrite C2; reflexivity.
Qed.

Lemma failed_mount_retries_forever_witness :
  react_auto offline_remote react_init react_init /\ ~ sn (react_auto offline_remote) react_init /\
  forall rc, rtc (react_auto offline_remote) react_init rc ->
    rc = react_init /\ map req (tasks (loop rc)) = [ListEmployees] /\
    isLoading (cur (loop rc)) = true /\ loadingLabel (cur (loop rc)) = "Loading employees..."%string.
Proof. apply (failed_mount_retries_forever offline_remote FetchError_transport). reflexivity. Defined.

Lemma failed_first_page_stops_witness :
  exists rc, rtc (react_auto no_pages_remote) react_init rc /\ nf (react_auto no_pages_remote) rc /\
    tasks (loop rc) = [] /\ transactions (cur (loop rc)) = Some [] /\
    shouldShowViewMore (cur (loop rc)) = false /\ selectItems (cur (loop rc)) = [EMPTY_EMPLOYEE; ann] /\
    isLoading (cur (loop rc)) = true /\ selectIsLoading (cur (loop rc)) = true.
Proof. apply (failed_first_page_stops no_pages_remote [ann] FetchError_transport); reflexivity. Defined.

Lemma mount_loads_and_stops_witness :
  exists rc, rtc (react_auto remote) react_init rc /\ nf (react_auto remote) rc /\
    transactions (cur (loop rc)) = Some [t1; t2] /\
    selectItems (cur (loop rc)) = [EMPTY_EMPLOYEE; ann] /\ isLoading (cur (loop rc)) = false /\
    rendered rc = Some (effect_deps (cur (loop rc))).
Proof. apply (mount_loads_and_stops remote [ann] (Page.mk [t1; t2] (Some 1%N))); reflexivity. Defined.

(** Once the employees are loaded the effect's guard never holds. *)
Lemma loaded_effect_done s : employees s <> None -> loadEffect s = Done.
Proof. intros He. unfold loadEffect. destruct (employees s); [|done]. by rewrite andb_false_r, andb_false_l. Qed.
