(* ===== verification/Stranded.v ===== *)
(** * A rejected first page strands the component (spec sections 4.1, 7)

    When the mount's employee list arrives but its first page is
    rejected ([React.failed_first_page_stops]), the component holds the
    employees and no page.  From there no UI event can fetch a page
    again.  The effect's guard fails (the employees are cached).  The
    no-filter entry reaches [loadAllTransactions], whose guard fails for
    the same reason.  "View More" is hidden, since there is no page to
    take a cursor from.  Only employee selections start fetches, and
    their continuations touch neither the employees nor the page hook.
    [stranded] is that invariant of the UI-driven interleavings
    ([Gating.ui_step]). *)

From stdpp Require Import base list options strings relations.
From S2P Require Import Prelude Types Remote Scenario Async Hooks App Handlers Sessions Gating React.

Open Scope js_scope.

(** A task in flight for an employee's transactions. *)
Definition emp_task (t : @Pending State) : Prop :=
  exists i, first_await (loadTransactionsByEmployee i) = Some t.

(** Employees cached, no page, nothing accumulated, and only employee
    fetches in flight. *)
Definition stranded (c : @Config State) : Prop :=
  employees (cur c) <> None /\ paginatedTransactions (cur c) = None /\
  allTransactions (cur c) = [] /\ Forall emp_task (tasks c).

(** The state the mount leaves when the first page is rejected. *)
Definition no_page_mounted : @Config State :=
  Cfg (session no_pages_remote [Rendered] initialState) [].

(** The three fields of the state [stranded] reads, as a tuple. *)
Definition stranded_view (s : State) :=
  (employees s, paginatedTransactions s, allTransactions s).

Lemma stranded_intro c e :
  e <> None -> stranded_view (cur c) = (e, None, []) -> Forall emp_task (tasks c) -> stranded c.
Proof. intros He Hv Ht. injection Hv as He0 Hp Ha. unfold stranded. by rewrite He0. Qed.

(** A handler on a stranded state changes none of the three fields and
    starts an employee fetch at most. *)
Lemma handler_stranded ev s :
  employees s <> None -> paginatedTransactions s = None ->
  stranded_view (advance (handler ev s) s).1 = stranded_view s /\
  (forall t, first_await (handler ev s) = Some t -> emp_task t).
Proof.
  intros He Hp. destruct ev as [|[e|]|]; cbn [handler].
  - by rewrite loaded_effect_done.
  - unfold handleEmployeeChange. case_match.
    + split; [done|]. intros t Ht. by exists (Employee.id e).
    + simpl. by rewrite loadAll_skip by (left; done).
  - done.
  - assert (viewMoreClickable s = false) as ->; [|done].
    unfold viewMoreClickable, shouldShowViewMore, nextPageOf. rewrite Hp.
    by rewrite andb_false_r, andb_false_l.
Qed.

(** An employee fetch, settled either way, ends its handler and leaves
    the three fields alone. *)
Lemma resume_stranded R t s :
  emp_task t ->
  stranded_view (advance (resume R t) s).1 = stranded_view s /\ first_await (resume R t) = None.
Proof.
  intros [i Hfa]. simpl in Hfa. injection Hfa as <-. unfold resume. simpl.
  destruct_fetched; simpl; done.
Qed.

Lemma stranded_step R c c' : ui_step R c c' -> stranded c -> stranded c'.
Proof.
  intros Hs (He & Hp & Ha & Ht). destruct Hs as [ev c|j t c Hj].
  - destruct (handler_stranded ev (cur c) He Hp) as [Hv Hf].
    apply (stranded_intro _ (employees (cur c))); [done|..].
    + rewrite spawn_cur, Hv. unfold stranded_view. by rewrite Hp, Ha.
    + rewrite spawn_tasks. apply Forall_app; split; [done|].
      destruct (first_await _) eqn:E; [by apply Forall_singleton, Hf|done].
  - pose proof (Forall_lookup_1 _ _ _ _ Ht Hj) as Htj.
    destruct (resume_stranded R t (cur c) Htj) as [Hv Hf].
    apply (stranded_intro _ (employees (cur c))); [done|..].
    + rewrite spawn_cur. simpl. rewrite Hv. unfold stranded_view. by rewrite Hp, Ha.
    + rewrite spawn_tasks, Hf, app_nil_r. by apply Forall_delete.
Qed.

(** C30. Once the employees are cached with no page and nothing
    accumulated, and only employee fetches are in flight ([stranded]:
    what a rejected first page leaves, C29), no interleaving of UI events
    and settlements ever fetches a page again.  The configuration stays
    [stranded], no page request is ever in flight, "View More" stays
    hidden, and with no filter the list shown stays empty.  Neither the
    code nor the UI offers a way to retry (spec section 4.1 promises a
    page after [initialLoad]). *)
Theorem stranded_never_fetches_page R c0 c :
  stranded c0 -> rtc (ui_step R) c0 c ->
  stranded c /\ Forall (fun t => is_page t = false) (tasks c) /\
  shouldShowViewMore (cur c) = false /\
  (employeeId (cur c) = None -> transactions (cur c) = Some []).
Proof.
  intros H0 Hr.
  assert (stranded c) as Hc.
  { induction Hr as [c|c1 c2 c3 Hs _ IH]; [done|]. by apply IH, (stranded_step R c1). }
  destruct Hc as (He' & Hp' & Ha' & Ht'). split_and!; [done|..].
  - eapply Forall_impl; [exact Ht'|]. intros t [i Hfa]. simpl in Hfa. injection Hfa as <-. reflexivity.
  - unfold shouldShowViewMore, nextPageOf. rewrite Hp'. by rewrite andb_false_r.
  - intros Hf. unfold transactions. by rewrite Hf, Hp', Ha'.
Qed.

Lemma stranded_never_fetches_page_witness :
  stranded no_page_mounted /\ Forall (fun t => is_page t = false) (tasks no_page_mounted) /\
  shouldShowViewMore (cur no_page_mounted) = false /\
  (employeeId (cur no_page_mounted) = None -> transactions (cur no_page_mounted) = Some []).
Proof.
  apply (stranded_never_fetches_page no_pages_remote no_page_mounted); [|apply rtc_refl].
  split_and!; [vm_compute; discriminate|reflexivity|reflexivity|apply Forall_nil_2].
Defined.
