(* ===== verification/SpecView.v ===== *)
(** * Quiescent interleavings show the spec's view model

    [Refinement] relates the component to the spec's view model one
    action at a time, each handler run to completion.  Here the relation
    is recovered on the event loop itself.  Take any interleaving the UI
    can drive ([Gating.ui_step]), handlers overlapping and fetches
    settling in any order.  Whenever nothing is left in flight, the
    state represents a well-formed view model whose pages are the first
    [k] pages of the remote's feed.  So what the screen shows is the
    spec's [displayedTransactions] and [canLoadMore] of that view model.

    The proof composes the invariants of the interleavings: [gated_inv]
    ([Gating]) for the employee and page hooks' loading flags,
    [feed_inv] ([Feed]) for the pages, and [filter_ok] ([WellFormed])
    for the filter.  The one new invariant is [byemp_ok]: the
    by-employee hook is loading only while one of its fetches is in
    flight. *)

From stdpp Require Import base list options strings relations.
From S2P Require Import Prelude Types Remote Scenario Async Hooks App Handlers Sessions ViewModel Refinement Gating Feed WellFormed.

Open Scope js_scope.

(** Tasks waiting for an employee's transactions. *)
Definition is_byemp (t : @Pending State) : bool :=
  match req t with TransactionsByEmployee _ => true | _ => false end.

Definition byemp_ok (c : @Config State) : Prop :=
  transactionsByEmployeeLoading (cur c) = true -> count is_byemp (tasks c) <> 0.

(** The view model a quiescent state shows: its employees, the first [k]
    pages of the feed, its filter and its employee-scoped list. *)
Definition vm_of (ps : list Page) (k : nat) (s : State) : VM :=
  MkVM (employees s) (take k ps) (employeeId s) (transactionsByEmployee s).

(** After the mount and one "View More" click of the spec's scenario. *)
Definition clicked_once : @Config State :=
  Cfg (session remote [Rendered; ViewMoreClick] initialState) [].

(** ** The by-employee hook's loading flag *)

(** A handler sets the flag only by starting an employee's fetch. *)
Lemma handler_byemp ev s :
  transactionsByEmployeeLoading (advance (handler ev s) s).1 = true ->
  transactionsByEmployeeLoading s = true \/
  exists t, first_await (handler ev s) = Some t /\ is_byemp t = true.
Proof.
  destruct ev as [|[e|]|]; cbn [handler];
    unfold handleEmployeeChange, loadEffect, loadAllTransactions, loadTransactionsByEmployee,
      loadMoreTransactions;
    repeat case_match; simpl; intros Hl; first [by left|by right; eexists].
Qed.

(** Settling an employee's fetch clears the flag, on either answer; the
    other continuations leave it, and none starts an employee's fetch. *)
Lemma resume_byemp R t s :
  task_of t ->
  transactionsByEmployeeLoading (advance (resume R t) s).1 =
    (if is_byemp t then false else transactionsByEmployeeLoading s) /\
  (forall t', first_await (resume R t) = Some t' -> is_byemp t' = false).
Proof. intros Ht. task_cases Ht; split; try done; by intros ? [= <-]. Qed.

Lemma byemp_step R c c' : ui_step R c c' -> gated_inv c -> byemp_ok c -> byemp_ok c'.
Proof.
  intros Hs Hg Hb. destruct Hs as [ev c|j t c Hj]; unfold byemp_ok;
    rewrite spawn_cur, spawn_tasks, count_app.
  - intros Hl. destruct (handler_byemp ev (cur c) Hl) as [H|(t & -> & Ht)];
      [specialize (Hb H); lia|rewrite count_single, Ht; lia].
  - pose proof (Forall_lookup_1 _ _ _ _ (inv_tasks _ Hg) Hj) as Htj.
    cbn [cur tasks]. destruct (resume_byemp R t (cur c) Htj) as [-> Hf].
    unfold byemp_ok in Hb. rewrite (count_delete is_byemp _ j t Hj) in Hb.
    destruct (is_byemp t); [done|]. intros Hl. specialize (Hb Hl). lia.
Qed.

Lemma ui_reachable_byemp R c : ui_reachable R c -> byemp_ok c.
Proof.
  unfold ui_reachable. remember (Cfg initialState []) as c0 eqn:E.
  assert (gated_inv c0 /\ byemp_ok c0) as H0 by (subst; split; [apply inv_initial|done]).
  clear E. induction 1 as [c|c1 c2 c3 Hs _ IH]; [apply H0|]. apply IH. destruct H0 as [H Hb].
  split; [|by eapply byemp_step].
  destruct Hs as [ev c|j t c Hj]; [by apply inv_invoke|by apply inv_settle].
Qed.

(** ** Quiescent states represent the view model *)

(** With nothing in flight, no hook is loading. *)
Lemma quiescent_not_loading R c :
  ui_reachable R c -> tasks c = [] ->
  employeesLoading (cur c) = false /\ transactionsLoading (cur c) = false /\
  transactionsByEmployeeLoading (cur c) = false.
Proof.
  intros Hr Ht. pose proof (ui_reachable_inv R c Hr) as Hg. pose proof (ui_reachable_byemp R c Hr) as Hb.
  pose proof (inv_emp _ Hg) as He. pose proof (inv_page _ Hg) as Hp.
  unfold byemp_ok in Hb. rewrite Ht in He, Hp, Hb.
  split_and!; [by destruct (employeesLoading (cur c))|by destruct (transactionsLoading (cur c))|].
  destruct (transactionsByEmployeeLoading (cur c)); [|done]. by destruct Hb.
Qed.

(** The pages the state holds are the first [k] of the feed. *)
Lemma feed_ok_pages ps s :
  feed_ok ps s -> exists k, k <= length ps /\
    paginatedTransactions s = last (take k ps) /\
    allTransactions s = concat (map Page.data (removelast (take k ps))).
Proof.
  intros [[Hp Ha]|(k & p & Hk & Hp & Ha)].
  - exists 0. rewrite Hp, Ha. simpl. split_and!; [lia|done|done].
  - exists (S k). rewrite (take_S_r _ _ _ Hk), last_snoc, removelast_snoc.
    split_and!; [by apply lookup_lt_Some in Hk; lia|done|done].
Qed.

(** C31. Whatever the interleaving of UI events and settlements, and
    whatever the remote answers along its feed [ps] (whose cursors are
    truthy numbers), every configuration with nothing in flight represents
    a well-formed view model of the spec, whose pages are the first [k]
    pages of the feed.  The list shown and the "View More" condition are
    then the spec's [displayedTransactions] and [canLoadMore] of that
    view model.  What the user sees between fetches is a state the spec
    allows, even after overlapping handlers (spec sections 4.1 and 5). *)
Theorem quiescent_shows_spec R ps c :
  feed_consistent R ps -> Forall (fun p => Page.nextPage p <> Some 0%N) ps ->
  ui_reachable R c -> tasks c = [] ->
  exists k, k <= length ps /\ vm_wf (vm_of ps k (cur c)) /\ refines (vm_of ps k (cur c)) (cur c) /\
    transactions (cur c) = vm_displayed (vm_of ps k (cur c)) /\
    shouldShowViewMore (cur c) = vm_canLoadMore (vm_of ps k (cur c)).
Proof.
  intros Hc Hps Hr Ht.
  destruct (quiescent_not_loading R c Hr Ht) as (Hel & Htl & Hbl).
  pose proof (ui_reachable_feed R ps c Hc Hr) as Hf.
  destruct (feed_ok_pages ps (cur c) (fi_state _ _ Hf)) as (k & Hk & Hp & Ha).
  assert (refines (vm_of ps k (cur c)) (cur c)) as Href by (constructor; done).
  assert (vm_wf (vm_of ps k (cur c))) as Hwf.
  { split_and!; simpl.
    - intros He. destruct (inv_no_employees _ (fi_gated _ _ Hf) He) as [Hn _].
      rewrite Hn in Hp. symmetry in Hp. by apply last_None in Hp.
    - apply (ui_reachable_filter_ok R c Hr).
    - unfold vm_cursor. simpl. destruct (last (take k ps)) as [p|] eqn:Hl; simpl; [|done].
      pose proof (Forall_take _ k _ Hps) as Htk. rewrite Forall_forall in Htk.
      by apply Htk, last_Some_elem_of. }
  exists k. split_and!; [done|done|done|by apply refines_displayed|by apply refines_canLoadMore].
Qed.

Lemma quiescent_shows_spec_witness :
  exists k, k <= length pages /\ vm_wf (vm_of pages k (cur clicked_once)) /\
    refines (vm_of pages k (cur clicked_once)) (cur clicked_once) /\
    transactions (cur clicked_once) = vm_displayed (vm_of pages k (cur clicked_once)) /\
    shouldShowViewMore (cur clicked_once) = vm_canLoadMore (vm_of pages k (cur clicked_once)).
Proof.
  apply (quiescent_shows_spec remote pages clicked_once).
  - apply serves_consistent. eapply serves_more; [reflexivity|reflexivity|lia|].
    apply serves_last; reflexivity.
  - repeat constructor; discriminate.
  - apply (rtc_trans _ (Cfg (session remote [Rendered] initialState) []));
      [apply (session_event_ui remote Rendered)|apply (session_event_ui remote ViewMoreClick)].
  - reflexivity.
Defined.
